(** * A product catalog backend: server.js

  Shallow embedding of [server.js]: the schema initialiser and seeder
  ([initDb]), the listing handler ([GET /api/products]), the create
  handler ([POST /api/products]) and the process bootstrap.

  The program talks to PostgreSQL through the [pg] driver.  The database
  is not part of the program; it is modelled here as far as the statements
  the program issues need it: a table of rows, the [SERIAL] sequence, one
  open transaction, the [NOT NULL] and range checks of the columns, and
  the [LIKE] operator.  Every call to the driver may also be rejected for
  a reason this model does not compute (a lost connection, a statement
  timeout, the sequence at its last value, a text parameter of a [SELECT]
  that holds the character U+0000): which calls are rejected is decided
  by a fault oracle indexed by the call site, and a rejected call changes
  nothing in the database.  Strings are sequences of bytes; what the
  program does with the case of letters is modelled on ASCII text. *)

From Stdlib Require Import ZArith List String Ascii Bool Lia Sorted Permutation.
From Stdlib Require Import DecimalString.
Import ListNotations.
Local Open Scope string_scope.
Local Open Scope list_scope.
Local Open Scope Z_scope.

(** ** JavaScript and SQL strings *)

Module Str.

Definition chars (s : string) : list ascii := list_ascii_of_string s.

(** The lower-case form of an ASCII letter; every other byte is left as
    it is. *)
Definition lower_ascii (c : ascii) : ascii :=
  let n := N_of_ascii c in
  if ((65 <=? n) && (n <=? 90))%N then ascii_of_N (n + 32) else c.

(** [String.prototype.toLowerCase], as it acts on ASCII text.  JavaScript
    also folds the letters outside ASCII, which this function leaves as
    they are: what is proved of the folding is stated for ASCII text. *)
Definition toLowerCase (s : string) : string :=
  string_of_list_ascii (map lower_ascii (chars s)).

(** Text made of ASCII characters other than U+0000. *)
Definition ascii_text (s : string) : bool :=
  forallb (fun c => let n := N_of_ascii c in ((0 <? n) && (n <? 128))%N)
          (chars s).

(** Text without the character U+0000, which PostgreSQL does not store. *)
Definition no_nul (s : string) : bool :=
  forallb (fun c => negb (N.eqb (N_of_ascii c) 0)) (chars s).

(** JavaScript truthiness of a string: only the empty string is falsy. *)
Definition truthy (s : string) : bool :=
  match s with EmptyString => false | String _ _ => true end.

(** Truthiness of a value that may be [undefined]. *)
Definition truthy_opt (o : option string) : bool :=
  match o with None => false | Some s => truthy s end.

(** Number-to-string conversion of a template literal, for array lengths. *)
Definition of_nat (n : nat) : string :=
  NilEmpty.string_of_uint (Nat.to_uint n).

Definition to_nat (s : string) : option nat :=
  match s with
  | EmptyString => None
  | _ => option_map Nat.of_uint (NilEmpty.uint_of_string s)
  end.

(** [Array.prototype.join]. *)
Definition join (sep : string) (l : list string) : string :=
  String.concat sep l.

Fixpoint strip_prefix (p s : string) : option string :=
  match p with
  | EmptyString => Some s
  | String a p' =>
      match s with
      | EmptyString => None
      | String b s' => if Ascii.eqb a b then strip_prefix p' s' else None
      end
  end.

(** [s] with its last [length p] characters removed, when they are [p]. *)
Fixpoint strip_suffix (p s : string) : option string :=
  if String.eqb p s then Some EmptyString
  else match s with
       | EmptyString => None
       | String c s' => option_map (String c) (strip_suffix p s')
       end.

(** Pieces of [s] between the occurrences of a non-empty separator. *)
Fixpoint split_from (sep : string) (skip : nat) (cur s : string) : list string :=
  match s with
  | EmptyString => [cur]
  | String c s' =>
      match skip with
      | S k => split_from sep k cur s'
      | O =>
          if String.prefix sep s
          then cur :: split_from sep (Nat.pred (String.length sep)) EmptyString s'
          else split_from sep O (cur ++ String c EmptyString)%string s'
      end
  end.

Definition split (sep s : string) : list string :=
  split_from sep O EmptyString s.

(** Substring containment. *)
Fixpoint is_prefix (p s : list ascii) : bool :=
  match p, s with
  | [], _ => true
  | _ :: _, [] => false
  | a :: p', b :: s' => Ascii.eqb a b && is_prefix p' s'
  end.

Fixpoint contains_chars (needle hay : list ascii) : bool :=
  is_prefix needle hay ||
  match hay with
  | [] => false
  | _ :: hay' => contains_chars needle hay'
  end.

Definition contains (needle hay : string) : bool :=
  contains_chars (chars needle) (chars hay).

End Str.

(** ** The SQL [LIKE] operator *)

Module Like.

Inductive tok : Type :=
| Any                 (* [%]: any run of characters *)
| One                 (* [_]: exactly one character *)
| Lit (c : ascii).    (* the character itself, escaped or plain *)

Definition percent : ascii := "%"%char.
Definition underscore : ascii := "_"%char.
Definition backslash : ascii := "\"%char.

Definition special (c : ascii) : bool :=
  Ascii.eqb c percent || Ascii.eqb c underscore || Ascii.eqb c backslash.

(** A pattern as PostgreSQL reads it, the backslash being the default
    escape character.  A pattern that ends in a lone backslash is an
    error ([None]). *)
Fixpoint parse (p : list ascii) : option (list tok) :=
  match p with
  | [] => Some []
  | c :: p' =>
      if Ascii.eqb c backslash then
        match p' with
        | [] => None
        | d :: p'' => option_map (cons (Lit d)) (parse p'')
        end
      else if Ascii.eqb c percent then option_map (cons Any) (parse p')
      else if Ascii.eqb c underscore then option_map (cons One) (parse p')
      else option_map (cons (Lit c)) (parse p')
  end.

Fixpoint matches (ts : list tok) (s : list ascii) : bool :=
  match ts with
  | [] => match s with [] => true | _ :: _ => false end
  | Lit c :: ts' =>
      match s with
      | [] => false
      | d :: s' => Ascii.eqb c d && matches ts' s'
      end
  | One :: ts' =>
      match s with
      | [] => false
      | _ :: s' => matches ts' s'
      end
  | Any :: ts' =>
      (fix any (s : list ascii) : bool :=
         matches ts' s ||
         match s with
         | [] => false
         | _ :: s' => any s'
         end) s
  end.

(** [subject LIKE pattern]. *)
Definition like (subject pattern : string) : option bool :=
  option_map (fun ts => matches ts (Str.chars subject))
             (parse (Str.chars pattern)).

End Like.

(** ** The database: the [products] table as PostgreSQL keeps it *)

Module Pg.

(** A stored row.  [name] and [price] are [NOT NULL]; [price] is
    [NUMERIC(10,2)], kept as a number of hundredths. *)
Record Row : Type := mkRow {
  id : Z;
  ext_id : option Z;
  name : string;
  category : option string;
  price : Z;
  image : option string;
  stock : option Z;
  created_at : Z
}.

(** The six bound parameters of an [INSERT]; [None] is SQL [NULL]. *)
Record InsertParams : Type := mkParams {
  p_ext_id : option Z;
  p_name : option string;
  p_category : option string;
  p_price : option Z;
  p_image : option string;
  p_stock : option Z
}.

(** [rows] are the committed rows in insertion order, [next_id] the next
    value of the [SERIAL] sequence, [pending] the rows inserted by the
    open transaction of the seeding connection, [clock] the value of
    [now()]. *)
Record Db : Type := mkDb {
  rows : list Row;
  next_id : Z;
  pending : option (list Row);
  clock : Z
}.

Inductive Err : Type :=
| ConnectionLost
| NotNull (column : string)
| OutOfRange (column : string)
| BadStatement (text : string)
| BadPattern
| MissingParameter (n : nat)
| BadText (column : string)
| Runtime (code : string).   (* an exception of Node, not of the database *)

Inductive result (A : Type) : Type :=
| Ok (a : A)
| Fail (e : Err).
Arguments Ok {A} a.
Arguments Fail {A} e.

Definition int4 (z : Z) : bool := (- 2 ^ 31 <=? z) && (z <? 2 ^ 31).
Definition numeric_10_2 (h : Z) : bool := Z.abs h <? 10 ^ 10.

Definition int4_opt (o : option Z) : bool :=
  match o with None => true | Some z => int4 z end.

Definition numeric_opt (o : option Z) : bool :=
  match o with None => true | Some h => numeric_10_2 h end.

Definition text_opt (o : option string) : bool :=
  match o with None => true | Some s => Str.no_nul s end.

(** SQL [LOWER], as it acts on ASCII text: it folds the letters A to Z.
    (The locales of PostgreSQL agree on this but for the Turkic ones; what
    [LOWER] does outside ASCII depends on the locale, and the bytes
    outside ASCII are left as they are here, as in the C locale.) *)
Definition lower (s : string) : string :=
  string_of_list_ascii (map Str.lower_ascii (Str.chars s)).

Definition with_rows (d : Db) (l : list Row) : Db :=
  mkDb l (next_id d) (pending d) (clock d).
Definition with_pending (d : Db) (p : option (list Row)) : Db :=
  mkDb (rows d) (next_id d) p (clock d).
Definition bump (d : Db) : Db :=
  mkDb (rows d) (next_id d + 1) (pending d) (clock d).

(** [CREATE TABLE IF NOT EXISTS products (...)]: a table that is missing
    is the same as an empty one here, so the statement changes nothing. *)
Definition create_table (d : Db) : result unit * Db := (Ok tt, d).

(** [SELECT COUNT( * )::int AS cnt FROM products], run on a pool
    connection: it sees the committed rows.  The cast to [int] fails on a
    count that does not fit 32 bits. *)
Definition count (d : Db) : result Z * Db :=
  let cnt := Z.of_nat (List.length (rows d)) in
  if int4 cnt then (Ok cnt, d) else (Fail (OutOfRange "cnt"), d).

Definition begin (d : Db) : result unit * Db :=
  (Ok tt, match pending d with
          | None => with_pending d (Some [])
          | Some _ => d
          end).

Definition commit (d : Db) : result unit * Db :=
  (Ok tt, match pending d with
          | None => d
          | Some l => mkDb (rows d ++ l) (next_id d) None (clock d)
          end).

Definition rollback (d : Db) : result unit * Db :=
  (Ok tt, with_pending d None).

(** What an [INSERT] does before it stores the row.  The parameters are
    converted when they are bound: an integer out of range, a text that
    holds U+0000 or a price that does not fit [NUMERIC(10,2)] fails the
    statement before anything is drawn from the sequence.  The defaults
    ([id] from the sequence, [created_at] from the clock) are computed
    next, and a sequence value that was drawn is never given back; the
    [NOT NULL] checks come last. *)
Definition make_row (d : Db) (p : InsertParams) : result Row * Db :=
  if negb (int4_opt (p_ext_id p)) then (Fail (OutOfRange "ext_id"), d)
  else if negb (int4_opt (p_stock p)) then (Fail (OutOfRange "stock"), d)
  else if negb (text_opt (p_name p)) then (Fail (BadText "name"), d)
  else if negb (text_opt (p_category p)) then (Fail (BadText "category"), d)
  else if negb (text_opt (p_image p)) then (Fail (BadText "image"), d)
  else if negb (numeric_opt (p_price p)) then (Fail (OutOfRange "price"), d)
  else
    let d' := bump d in
    match p_name p, p_price p with
    | None, _ => (Fail (NotNull "name"), d')
    | Some _, None => (Fail (NotNull "price"), d')
    | Some n, Some h =>
        (Ok (mkRow (next_id d) (p_ext_id p) n (p_category p) h
                   (p_image p) (p_stock p) (clock d)), d')
    end.

(** [INSERT ... VALUES ($1, ..., $6)] on the seeding connection: the row
    joins the open transaction, or is committed at once when there is
    none. *)
Definition client_insert (p : InsertParams) (d : Db) : result unit * Db :=
  match make_row d p with
  | (Fail e, d') => (Fail e, d')
  | (Ok r, d') =>
      (Ok tt, match pending d' with
              | Some l => with_pending d' (Some (l ++ [r]))
              | None => with_rows d' (rows d' ++ [r])
              end)
  end.

(** [INSERT ... RETURNING *] on a pool connection, committed at once. *)
Definition pool_insert_returning (p : InsertParams) (d : Db)
  : result (list Row) * Db :=
  match make_row d p with
  | (Fail e, d') => (Fail e, d')
  | (Ok r, d') => (Ok [r], with_rows d' (rows d' ++ [r]))
  end.

(** *** The listing [SELECT] *)

(** A row of the listing: the seven selected columns, [price] converted
    to [float8] (kept as hundredths here). *)
Record Item : Type := mkItem {
  i_id : Z;
  i_ext_id : option Z;
  i_name : string;
  i_category : option string;
  i_price : Z;
  i_image : option string;
  i_stock : option Z
}.

Definition item_of (r : Row) : Item :=
  mkItem (id r) (ext_id r) (name r) (category r) (price r) (image r) (stock r).

Definition select_head : string :=
  "SELECT id, ext_id, name, category, price::numeric::float8 AS price, image, stock FROM products".

Inductive cond : Type :=
| CategoryEq (n : nat)        (* [category = $n] *)
| LowerNameLike (n : nat).    (* [LOWER(name) LIKE $n] *)

Definition parse_cond (s : string) : option cond :=
  match Str.strip_prefix "category = $" s with
  | Some n => option_map CategoryEq (Str.to_nat n)
  | None =>
      match Str.strip_prefix "LOWER(name) LIKE $" s with
      | Some n => option_map LowerNameLike (Str.to_nat n)
      | None => None
      end
  end.

Fixpoint parse_conds (l : list string) : option (list cond) :=
  match l with
  | [] => Some []
  | s :: l' =>
      match parse_cond s, parse_conds l' with
      | Some c, Some cs => Some (c :: cs)
      | _, _ => None
      end
  end.

(** The statements of the shape
    [select_head [WHERE c1 AND ... AND ck] ORDER BY id]. *)
Definition parse_select (text : string) : option (list cond) :=
  match Str.strip_prefix select_head text with
  | None => None
  | Some rest =>
      match Str.strip_suffix " ORDER BY id" rest with
      | None => None
      | Some EmptyString => Some []
      | Some mid =>
          match Str.strip_prefix " WHERE " mid with
          | None => None
          | Some cs => parse_conds (Str.split " AND " cs)
          end
      end
  end.

Definition param (params : list string) (n : nat) : result string :=
  match n with
  | O => Fail (MissingParameter n)
  | S k =>
      match nth_error params k with
      | Some v => Ok v
      | None => Fail (MissingParameter n)
      end
  end.

(** A comparison with [NULL] is not true: the row is left out. *)
Definition category_is (v : string) (r : Row) : bool :=
  match category r with
  | Some c => String.eqb c v
  | None => false
  end.

Definition lower_name_matches (ts : list Like.tok) (r : Row) : bool :=
  Like.matches ts (Str.chars (lower (name r))).

Definition compile_cond (params : list string) (c : cond)
  : result (Row -> bool) :=
  match c with
  | CategoryEq n =>
      match param params n with
      | Ok v => Ok (category_is v)
      | Fail e => Fail e
      end
  | LowerNameLike n =>
      match param params n with
      | Ok v =>
          match Like.parse (Str.chars v) with
          | Some ts => Ok (lower_name_matches ts)
          | None => Fail BadPattern
          end
      | Fail e => Fail e
      end
  end.

Fixpoint compile_where (params : list string) (cs : list cond)
  : result (Row -> bool) :=
  match cs with
  | [] => Ok (fun _ => true)
  | c :: cs' =>
      match compile_cond params c, compile_where params cs' with
      | Ok f, Ok g => Ok (fun r => f r && g r)
      | Fail e, _ => Fail e
      | _, Fail e => Fail e
      end
  end.

(** [ORDER BY id]: a stable insertion sort on the [id] column. *)
Fixpoint insert_by_id (r : Row) (l : list Row) : list Row :=
  match l with
  | [] => [r]
  | x :: l' => if id r <? id x then r :: l else x :: insert_by_id r l'
  end.

Fixpoint order_by_id (l : list Row) : list Row :=
  match l with
  | [] => []
  | r :: l' => insert_by_id r (order_by_id l')
  end.

(** The listing statement.  PostgreSQL refuses a text parameter that holds
    the character U+0000; that refusal is not computed here, it is one of
    the rejections of the call that the oracle decides. *)
Definition select (text : string) (params : list string) (d : Db)
  : result (list Item) * Db :=
  match parse_select text with
  | None => (Fail (BadStatement text), d)
  | Some cs =>
      match compile_where params cs with
      | Fail e => (Fail e, d)
      | Ok keep => (Ok (map item_of (order_by_id (filter keep (rows d)))), d)
      end
  end.

End Pg.

(** ** The server *)

Module Server.

(** *** Effects: the driver, the console, exceptions *)

(** The places where the program calls the driver. *)
Inductive Site : Type :=
| AtCreateTable               (* line 42 *)
| AtCount                     (* line 45 *)
| AtConnect                   (* line 65 *)
| AtBegin                     (* line 67 *)
| AtSeedInsert (i : nat)      (* line 73, for the product of index [i] *)
| AtCommit                    (* line 75 *)
| AtRollback                  (* line 78 *)
| AtList                      (* line 106 *)
| AtCreate                    (* line 119 *)
| AtListen                    (* line 138, the call of [app.listen] *)
| AtBind.                     (* line 138, the bind that follows the call *)

(** The calls that are rejected. *)
Definition Faults : Type := Site -> bool.

Definition no_faults : Faults := fun _ => false.

Inductive LogLine : Type :=
| Log (msg : string)                              (* [console.log] *)
| LogError (msg : string) (err : option Pg.Err).  (* [console.error] *)

(** [leased] counts the pool connections checked out and not released. *)
Record World : Type := mkWorld {
  db : Pg.Db;
  console : list LogLine;
  leased : nat
}.

Definition table (w : World) : list Pg.Row := Pg.rows (db w).

Inductive Outcome (A : Type) : Type :=
| Return (a : A)
| Throw (e : Pg.Err).
Arguments Return {A} a.
Arguments Throw {A} e.

Definition M (A : Type) : Type := Faults -> World -> Outcome A * World.

Definition ret {A} (a : A) : M A := fun _ w => (Return a, w).

Definition bind {A B} (m : M A) (k : A -> M B) : M B :=
  fun f w =>
    match m f w with
    | (Return a, w') => k a f w'
    | (Throw e, w') => (Throw e, w')
    end.

Notation "x <- m ;; k" := (bind m (fun x => k))
  (at level 61, m at next level, right associativity).
Notation "m ;;; k" := (bind m (fun _ => k))
  (at level 61, right associativity).

(** [try { body } catch (err) { handler err }]. *)
Definition try_catch {A} (body : M A) (handler : Pg.Err -> M A) : M A :=
  fun f w =>
    match body f w with
    | (Return a, w') => (Return a, w')
    | (Throw e, w') => handler e f w'
    end.

(** [try { ... } catch { ... } finally { fin }]: [fin] runs on every way
    out, and the outcome of the protected part stands. *)
Definition finally {A} (m : M A) (fin : M unit) : M A :=
  fun f w =>
    match m f w with
    | (o, w') =>
        match fin f w' with
        | (Return _, w'') => (o, w'')
        | (Throw e, w'') => (Throw e, w'')
        end
    end.

Definition set_db (w : World) (d : Pg.Db) : World :=
  mkWorld d (console w) (leased w).

Definition console_log (msg : string) : M unit :=
  fun _ w => (Return tt, mkWorld (db w) (console w ++ [Log msg]) (leased w)).

Definition console_error (msg : string) (err : option Pg.Err) : M unit :=
  fun _ w =>
    (Return tt, mkWorld (db w) (console w ++ [LogError msg err]) (leased w)).

Definition run_stmt {A} (stmt : Pg.Db -> Pg.result A * Pg.Db) (w : World)
  : Outcome A * World :=
  match stmt (db w) with
  | (Pg.Ok a, d) => (Return a, set_db w d)
  | (Pg.Fail e, d) => (Throw e, set_db w d)
  end.

(** [pool.query(...)]: one statement on some pool connection. *)
Definition pool_query {A} (s : Site) (stmt : Pg.Db -> Pg.result A * Pg.Db)
  : M A :=
  fun f w => if f s then (Throw Pg.ConnectionLost, w) else run_stmt stmt w.

(** [client.query(...)] on the seeding connection.  A rejected call
    changes nothing: what the open transaction has stored so far stays in
    it until a COMMIT or a ROLLBACK goes through. *)
Definition client_query {A} (s : Site) (stmt : Pg.Db -> Pg.result A * Pg.Db)
  : M A :=
  fun f w => if f s then (Throw Pg.ConnectionLost, w) else run_stmt stmt w.

(** [pool.connect()].  The pool was created by this process (line 20) and
    this is its first client: a new session, with no transaction open.
    What an earlier process left open on its own session went when that
    session ended. *)
Definition pool_connect : M unit :=
  fun f w =>
    if f AtConnect then (Throw Pg.ConnectionLost, w)
    else (Return tt,
          mkWorld (Pg.with_pending (db w) None) (console w) (S (leased w))).

(** [client.release()]. *)
Definition client_release : M unit :=
  fun _ w => (Return tt, mkWorld (db w) (console w) (Nat.pred (leased w))).

(** *** initDb: schema and seed data (lines 28-86) *)

(** An element of the [products] array literal. *)
Record Product : Type := mkProduct {
  ext_id : Z;
  name : string;
  category : string;
  price : Z;          (* hundredths: [19.99] is [1999] *)
  image : string;
  stock : Z
}.

Definition products : list Product := [
  mkProduct 1 "Classic White T-Shirt" "tshirts" 1999
    "https://images.unsplash.com/photo-1521572163474-6864f9cf17ab?w=400" 50;
  mkProduct 2 "Cotton Polo Shirt" "shirts" 2999
    "https://images.unsplash.com/photo-1596755094514-f87e34085b2c?w=400" 30;
  mkProduct 3 "Slim Fit Blue Jeans" "jeans" 4999
    "https://images.unsplash.com/photo-1542272454315-7f6d6f9a0cbe?w=400" 25;
  mkProduct 4 "Casual Chino Pants" "pants" 3999
    "https://images.unsplash.com/photo-1473966968600-fa801b869a1a?w=400" 40;
  mkProduct 5 "Graphic Print T-Shirt" "tshirts" 2499
    "https://images.unsplash.com/photo-1503341504253-dff4815485f1?w=400" 60;
  mkProduct 6 "Formal Dress Shirt" "shirts" 4499
    "https://images.unsplash.com/photo-1602810318383-e386cc2a3ccf?w=400" 20;
  mkProduct 7 "Black Skinny Jeans" "jeans" 5499
    "https://images.unsplash.com/photo-1541099649105-f69ad21f3246?w=400" 8;
  mkProduct 8 "Cargo Pants" "pants" 4299
    "https://images.unsplash.com/photo-1624378439575-d8705ad7ae80?w=400" 28;
  mkProduct 9 "V-Neck T-Shirt" "tshirts" 2299
    "https://images.unsplash.com/photo-1581655353564-df123a1eb820?w=400" 45;
  mkProduct 10 "Denim Jacket" "shirts" 6999
    "https://images.unsplash.com/photo-1576995853123-5a10305d93c0?w=400" 15;
  mkProduct 11 "Ripped Jeans" "jeans" 5999
    "https://images.unsplash.com/photo-1584370848010-d7fe6bc767ec?w=400" 22;
  mkProduct 12 "Jogger Pants" "pants" 3699
    "https://images.unsplash.com/photo-1551028719-00167b16eac5?w=400" 35
].

(** [[p.ext_id, p.name, p.category, p.price, p.image, p.stock]]. *)
Definition seed_params (p : Product) : Pg.InsertParams :=
  Pg.mkParams (Some (ext_id p)) (Some (name p)) (Some (category p))
              (Some (price p)) (Some (image p)) (Some (stock p)).

(** [for (const p of products) await client.query(insertText, [...])],
    from the product of index [i] on. *)
Fixpoint seed_loop (i : nat) (ps : list Product) : M unit :=
  match ps with
  | [] => ret tt
  | p :: ps' =>
      client_query (AtSeedInsert i) (Pg.client_insert (seed_params p)) ;;;
      seed_loop (S i) ps'
  end.

Definition seed_transaction : M unit :=
  finally
    (try_catch
       (client_query AtBegin Pg.begin ;;;
        seed_loop O products ;;;
        client_query AtCommit Pg.commit ;;;
        console_log "Seed complete.")
       (fun err =>
          client_query AtRollback Pg.rollback ;;;
          console_error "Error seeding products:" (Some err)))
    client_release.

Definition skip_message (count : Z) : string :=
  ("Products table already has " ++ Str.of_nat (Z.to_nat count)
     ++ " rows, skip seeding.")%string.

Definition initDb : M unit :=
  pool_query AtCreateTable Pg.create_table ;;;
  count <- pool_query AtCount Pg.count ;;
  if count =? 0 then
    console_log "Seeding products table..." ;;;
    pool_connect ;;;
    seed_transaction
  else
    console_log (skip_message count).

(** *** The HTTP handlers *)

Inductive Json : Type :=
| JItems (items : list Pg.Item)               (* an array of products *)
| JRow (r : option Pg.Row)                    (* [rows[0]] *)
| JObject (fields : list (string * string)).  (* an object of strings *)

Record Response : Type := mkResponse {
  status : Z;
  body : Json
}.

(** [GET /api/products] (lines 89-112): the statement text and the bound
    parameters that reach [pool.query].  [qCategory] and [qSearch] are
    [req.query.category] and [req.query.search]: a string, or [None] when
    the URL does not carry the parameter ([?category=] is the empty
    string).  A parameter that Express delivers as an array or an object
    (a repeated parameter, a bracketed one) is outside this model. *)
Definition build_query (qCategory qSearch : option string)
  : string * list string :=
  let base :=
    "SELECT id, ext_id, name, category, price::numeric::float8 AS price, image, stock FROM products" in
  let where_ : list string := [] in
  let params : list string := [] in
  let '(where_, params) :=
    match qCategory with
    | Some c =>
        if Str.truthy c && negb (String.eqb c "all") then
          let params := params ++ [c] in
          (where_ ++ [("category = $" ++ Str.of_nat (List.length params))%string],
           params)
        else (where_, params)
    | None => (where_, params)
    end in
  let '(where_, params) :=
    match qSearch with
    | Some s =>
        if Str.truthy s then
          let params := params ++ [("%" ++ Str.toLowerCase s ++ "%")%string] in
          (where_ ++ [("LOWER(name) LIKE $" ++ Str.of_nat (List.length params))%string],
           params)
        else (where_, params)
    | None => (where_, params)
    end in
  let base :=
    match List.length where_ with
    | O => base
    | S _ => (base ++ " WHERE " ++ Str.join " AND " where_)%string
    end in
  let base := (base ++ " ORDER BY id")%string in
  (base, params).

Definition get_products (qCategory qSearch : option string) : M Response :=
  try_catch
    (let '(base, params) := build_query qCategory qSearch in
     rows <- pool_query AtList (Pg.select base params) ;;
     ret (mkResponse 200 (JItems rows)))
    (fun err =>
       console_error "GET /api/products error" (Some err) ;;;
       ret (mkResponse 500 (JObject [("error", "Failed to fetch products")]))).

(** The fields the create handler reads from [req.body].  [None] is a
    field that is missing (or [null]); a field that is present has the
    JSON type of its column: a string for the texts, an integer for
    [stock] and [ext_id], a number of at most two decimals, in hundredths,
    for [price].  A body with a field of another type (a number sent as a
    string) is outside this model. *)
Record Body : Type := mkBody {
  b_name : option string;
  b_category : option string;
  b_price : option Z;
  b_image : option string;
  b_stock : option Z;
  b_ext_id : option Z
}.

(** [ext_id || null]: a number is falsy when it is zero. *)
Definition or_null (v : option Z) : option Z :=
  match v with
  | Some z => if z =? 0 then None else Some z
  | None => None
  end.

(** [stock || 0]. *)
Definition or_zero (v : option Z) : option Z :=
  match v with
  | Some z => if z =? 0 then Some 0 else Some z
  | None => Some 0
  end.

Definition create_params (b : Body) : Pg.InsertParams :=
  Pg.mkParams (or_null (b_ext_id b)) (b_name b) (b_category b)
              (b_price b) (b_image b) (or_zero (b_stock b)).

(** [POST /api/products] (lines 115-125). *)
Definition post_products (b : Body) : M Response :=
  try_catch
    (rows <- pool_query AtCreate (Pg.pool_insert_returning (create_params b)) ;;
     ret (mkResponse 201 (JRow (hd_error rows))))
    (fun err =>
       console_error "POST /api/products error" (Some err) ;;;
       ret (mkResponse 500 (JObject [("error", "Failed to create product")]))).

(** *** Bootstrap (lines 13-17 and 135-145) *)

Record Env : Type := mkEnv {
  DATABASE_URL : option string;
  PORT : option string
}.

(** The value of [port]: the string from the environment or the number
    literal. *)
Inductive Port : Type :=
| PortString (s : string)
| PortNumber (n : Z).

(** How the start of the process ends: it listens, or it has exited. *)
Inductive Proc : Type :=
| Listening (port : Port)
| Exited (code : Z).

(** [process.env.PORT || 3000]. *)
Definition port_of (e : Env) : Port :=
  match PORT e with
  | Some s => if Str.truthy s then PortString s else PortNumber 3000
  | None => PortNumber 3000
  end.

Definition port_text (p : Port) : string :=
  match p with
  | PortString s => s
  | PortNumber n => Str.of_nat (Z.to_nat n)
  end.

(** [app.listen(port, ...)] throws at once when Node refuses the port: a
    number outside 0..65535, or a string of decimal digits that denotes
    one.  What Node makes of any other string (blanks, a sign, an
    exponent, a pipe name) is not computed: the oracle decides at
    [AtListen]. *)
Definition listen_throws (f : Faults) (p : Port) : bool :=
  match p with
  | PortNumber n => negb ((0 <=? n) && (n <=? 65535))
  | PortString s =>
      match Str.to_nat s with
      | Some v => 65535 <? Z.of_nat v
      | None => f AtListen
      end
  end.

(** The program from its first line: the check of the connection string,
    then [initDb().then(listen).catch(exit)].  An exception thrown inside
    [.then] reaches [.catch] like a rejection of [initDb].  When the bind
    fails after [app.listen] has returned (the port is in use, or not
    permitted), the server emits an error that nothing handles and the
    process dies with code 1, the callback of [app.listen] never called:
    the oracle decides at [AtBind]. *)
Definition main (e : Env) (f : Faults) (w : World) : Proc * World :=
  if negb (Str.truthy_opt (DATABASE_URL e)) then
    match console_error "DATABASE_URL missing in .env" None f w with
    | (_, w') => (Exited 1, w')
    end
  else
    let port := port_of e in
    match initDb f w with
    | (Return _, w') =>
        if listen_throws f port then
          match console_error "DB init failed:"
                              (Some (Pg.Runtime "ERR_SOCKET_BAD_PORT")) f w' with
          | (_, w'') => (Exited 1, w'')
          end
        else if f AtBind then (Exited 1, w')
        else
          match console_log ("Server started at http://localhost:" ++ port_text port)%string f w' with
          | (_, w'') => (Listening port, w'')
          end
    | (Throw err, w') =>
        match console_error "DB init failed:" (Some err) f w' with
        | (_, w'') => (Exited 1, w'')
        end
    end.

End Server.

(** * Properties *)

(** ** Strings and patterns *)

Module StrFacts.
Import Str.

Lemma chars_append (a b : string) :
  chars (a ++ b)%string = chars a ++ chars b.
Proof.
  induction a as [|c a IH]; simpl; [reflexivity|].
  unfold chars in *; simpl; now rewrite IH.
Qed.

Lemma chars_of_list (l : list ascii) : chars (string_of_list_ascii l) = l.
Proof. apply list_ascii_of_string_of_list_ascii. Qed.

Lemma chars_toLowerCase (s : string) :
  chars (toLowerCase s) = map lower_ascii (chars s).
Proof. unfold toLowerCase; apply chars_of_list. Qed.

Lemma is_prefix_spec (p s : list ascii) :
  is_prefix p s = true <-> exists post, s = p ++ post.
Proof.
  revert s; induction p as [|a p IH]; intros s; simpl.
  - split; [intros _; now exists s | reflexivity].
  - destruct s as [|b s].
    + split; [discriminate | intros [post H]; discriminate].
    + rewrite andb_true_iff, Ascii.eqb_eq, IH. split.
      * intros [-> [post ->]]. now exists post.
      * intros [post H]. injection H as -> ->. split; [reflexivity | now exists post].
Qed.

(** [contains_chars] decides substring containment. *)
Lemma contains_chars_spec (needle hay : list ascii) :
  contains_chars needle hay = true <->
  exists pre post, hay = pre ++ needle ++ post.
Proof.
  induction hay as [|c hay IH]; simpl.
  - rewrite orb_false_r, is_prefix_spec. split.
    + intros [post H]. now exists [], post.
    + intros [pre [post H]]. destruct pre; [now exists post | discriminate].
  - rewrite orb_true_iff, is_prefix_spec, IH. split.
    + intros [[post H] | [pre [post H]]].
      * now exists [], post.
      * exists (c :: pre), post. now rewrite H.
    + intros [pre [post H]]. destruct pre as [|d pre].
      * left. now exists post.
      * right. injection H as _ H. now exists pre, post.
Qed.

Lemma contains_spec (needle hay : string) :
  contains needle hay = true <->
  exists pre post, chars hay = pre ++ chars needle ++ post.
Proof. apply contains_chars_spec. Qed.

Lemma lower_ascii_special (c : ascii) :
  Like.special (lower_ascii c) = Like.special c.
Proof.
  destruct c as [[] [] [] [] [] [] [] []]; reflexivity.
Qed.

End StrFacts.

Module LikeFacts.
Import Like.

Lemma parse_cons (c : ascii) (p : list ascii) :
  parse (c :: p) =
  if Ascii.eqb c backslash then
    match p with
    | [] => None
    | d :: p' => option_map (cons (Lit d)) (parse p')
    end
  else if Ascii.eqb c percent then option_map (cons Any) (parse p)
  else if Ascii.eqb c underscore then option_map (cons One) (parse p)
  else option_map (cons (Lit c)) (parse p).
Proof. reflexivity. Qed.

(** A pattern that ends in [%] never ends in a lone backslash. *)
Lemma parse_percent_end (l : list ascii) :
  (exists ts, parse (l ++ [percent]) = Some ts) /\
  (forall c, exists ts, parse (c :: l ++ [percent]) = Some ts).
Proof.
  induction l as [|d l [IH1 IH2]].
  - split; [now eexists|].
    intros c. simpl.
    destruct (Ascii.eqb c backslash); [now eexists|].
    destruct (Ascii.eqb c percent); [now eexists|].
    destruct (Ascii.eqb c underscore); now eexists.
  - split; [apply IH2|].
    intros c. destruct IH1 as [t1 E1]. destruct (IH2 d) as [t2 E2].
    change ((d :: l) ++ [percent]) with (d :: (l ++ [percent])).
    rewrite parse_cons. cbv beta iota. rewrite E1, E2.
    destruct (Ascii.eqb c backslash); [now eexists|].
    destruct (Ascii.eqb c percent); [now eexists|].
    destruct (Ascii.eqb c underscore); now eexists.
Qed.

Lemma parse_wrapped (l : list ascii) :
  exists ts, parse (percent :: l ++ [percent]) = Some (Any :: ts) /\
             parse (l ++ [percent]) = Some ts.
Proof.
  destruct (proj1 (parse_percent_end l)) as [ts E].
  exists ts. split; [|exact E].
  rewrite parse_cons.
  change (Ascii.eqb percent backslash) with false.
  change (Ascii.eqb percent percent) with true. cbv iota.
  now rewrite E.
Qed.

(** Without [%], [_] and backslash, every character stands for itself. *)
Lemma parse_plain (l : list ascii) :
  (forall c, In c l -> special c = false) ->
  parse (l ++ [percent]) = Some (map Lit l ++ [Any]).
Proof.
  induction l as [|c l IH]; intros H; [reflexivity|].
  assert (Hc : special c = false) by (apply H; now left).
  unfold special in Hc. apply orb_false_iff in Hc as [Hc Hb].
  apply orb_false_iff in Hc as [Hp Hu].
  simpl. rewrite Hb, Hp, Hu, IH; [reflexivity|].
  intros d Hd. apply H. now right.
Qed.

Lemma matches_any (ts : list tok) (s : list ascii) :
  matches (Any :: ts) s = true <->
  exists pre post, s = pre ++ post /\ matches ts post = true.
Proof.
  induction s as [|c s IH].
  - simpl. rewrite orb_false_r. split.
    + intros H. now exists [], [].
    + intros [pre [post [E H]]].
      symmetry in E. apply app_eq_nil in E as [_ ->]. exact H.
  - change (matches (Any :: ts) (c :: s))
      with (matches ts (c :: s) || matches (Any :: ts) s).
    rewrite orb_true_iff, IH. split.
    + intros [H | [pre [post [E H]]]].
      * now exists [], (c :: s).
      * exists (c :: pre), post. now rewrite E.
    + intros [pre [post [E H]]]. destruct pre as [|d pre].
      * left. simpl in E. now rewrite E.
      * right. injection E as _ E. now exists pre, post.
Qed.

Lemma matches_lits (l s : list ascii) :
  matches (map Lit l ++ [Any]) s = true <-> exists post, s = l ++ post.
Proof.
  revert s; induction l as [|a l IH]; intros s.
  - simpl app. rewrite matches_any. split.
    + intros _. now exists s.
    + intros _. exists s, []. split; [now rewrite app_nil_r | reflexivity].
  - simpl. destruct s as [|b s].
    + split; [discriminate | intros [post H]; discriminate].
    + rewrite andb_true_iff, Ascii.eqb_eq, IH. split.
      * intros [-> [post ->]]. now exists post.
      * intros [post H]. injection H as -> ->. split; [reflexivity | now exists post].
Qed.

(** The pattern [%l%] with plain [l] is substring containment. *)
Lemma matches_plain_contains (l s : list ascii) :
  matches (Any :: map Lit l ++ [Any]) s = Str.contains_chars l s.
Proof.
  apply eq_true_iff_eq.
  rewrite matches_any, StrFacts.contains_chars_spec. split.
  - intros [pre [post [E H]]]. apply matches_lits in H as [post' ->].
    now exists pre, post'.
  - intros [pre [post E]]. exists pre, (l ++ post). split; [exact E|].
    apply matches_lits. now exists post.
Qed.

End LikeFacts.

(** ** The listing query *)

Module PgFacts.
Import Pg.

Definition id_le (a b : Row) : Prop := id a <= id b.

Lemma insert_by_id_perm (r : Row) (l : list Row) :
  Permutation (insert_by_id r l) (r :: l).
Proof.
  induction l as [|x l IH]; simpl; [reflexivity|].
  destruct (id r <? id x); [reflexivity|].
  rewrite IH. apply perm_swap.
Qed.

(** [ORDER BY] returns the rows it was given, each once. *)
Lemma order_by_id_perm (l : list Row) :
  Permutation (order_by_id l) l.
Proof.
  induction l as [|r l IH]; simpl; [reflexivity|].
  rewrite insert_by_id_perm. now constructor.
Qed.

Lemma insert_by_id_sorted (r : Row) (l : list Row) :
  StronglySorted id_le l -> StronglySorted id_le (insert_by_id r l).
Proof.
  induction 1 as [|x l Hs IH Hx]; simpl.
  - repeat constructor.
  - destruct (id r <? id x) eqn:E.
    + apply Z.ltb_lt in E. constructor; [now constructor|].
      constructor; [unfold id_le; lia|].
      eapply Forall_impl; [|exact Hx]. unfold id_le. intros; lia.
    + apply Z.ltb_ge in E. constructor; [exact IH|].
      eapply Permutation_Forall.
      * symmetry. apply insert_by_id_perm.
      * constructor; [exact E | exact Hx].
Qed.

(** ... in ascending order of [id]. *)
Lemma order_by_id_sorted (l : list Row) :
  StronglySorted id_le (order_by_id l).
Proof.
  induction l as [|r l IH]; simpl; [constructor|].
  now apply insert_by_id_sorted.
Qed.

Lemma category_is_spec (v : string) (r : Row) :
  category_is v r = true <-> category r = Some v.
Proof.
  unfold category_is. destruct (category r) as [c|].
  - rewrite String.eqb_eq. split; [now intros -> | now intros [= ->]].
  - split; discriminate.
Qed.

End PgFacts.

Module Listing.
Import Server.

(** The category the handler filters on, if any: a value that is neither
    missing, nor empty, nor the sentinel. *)
Definition category_value (qCategory : option string) : option string :=
  match qCategory with
  | Some c => if Str.truthy c && negb (String.eqb c "all") then Some c else None
  | None => None
  end.

(** The search term the handler filters on, if any. *)
Definition search_value (qSearch : option string) : option string :=
  match qSearch with
  | Some s => if Str.truthy s then Some s else None
  | None => None
  end.

Definition pattern (s : string) : string :=
  ("%" ++ Str.toLowerCase s ++ "%")%string.

(** The four statement texts. *)
Definition text_of (with_category with_search : bool) : string :=
  match with_category, with_search with
  | false, false =>
      "SELECT id, ext_id, name, category, price::numeric::float8 AS price, image, stock FROM products ORDER BY id"
  | true, false =>
      "SELECT id, ext_id, name, category, price::numeric::float8 AS price, image, stock FROM products WHERE category = $1 ORDER BY id"
  | false, true =>
      "SELECT id, ext_id, name, category, price::numeric::float8 AS price, image, stock FROM products WHERE LOWER(name) LIKE $1 ORDER BY id"
  | true, true =>
      "SELECT id, ext_id, name, category, price::numeric::float8 AS price, image, stock FROM products WHERE category = $1 AND LOWER(name) LIKE $2 ORDER BY id"
  end.

Definition is_some {A} (o : option A) : bool :=
  match o with Some _ => true | None => false end.

Definition to_list {A} (o : option A) : list A :=
  match o with Some a => [a] | None => [] end.

(** The rows a category filter and a search filter let through. *)
Definition by_category (qCategory : option string) (r : Pg.Row) : bool :=
  match category_value qCategory with
  | Some v => Pg.category_is v r
  | None => true
  end.

Definition by_search (qSearch : option string) (r : Pg.Row) : bool :=
  match search_value qSearch with
  | Some s =>
      match Like.like (Pg.lower (Pg.name r)) (pattern s) with
      | Some b => b
      | None => false
      end
  | None => true
  end.

(** The rows of a table that pass [keep], as the listing returns them. *)
Definition answer (keep : Pg.Row -> bool) (tbl : list Pg.Row) : list Pg.Item :=
  map Pg.item_of (Pg.order_by_id (filter keep tbl)).

Definition ok (items : list Pg.Item) : Response :=
  mkResponse 200 (JItems items).

(** The items of a response, when it carries any. *)
Definition items_of (o : Outcome Response) : option (list Pg.Item) :=
  match o with
  | Return r => match body r with JItems l => Some l | _ => None end
  | Throw _ => None
  end.

Lemma build_query_eq (c s : option string) :
  build_query c s =
  (text_of (is_some (category_value c)) (is_some (search_value s)),
   to_list (category_value c) ++ to_list (option_map pattern (search_value s))).
Proof.
  unfold build_query, category_value, search_value.
  destruct c as [c|]; [destruct (Str.truthy c && negb (String.eqb c "all"))|];
    (destruct s as [s|]; [destruct (Str.truthy s)|]); reflexivity.
Qed.

Lemma parse_select_text (b1 b2 : bool) :
  Pg.parse_select (text_of b1 b2) =
  Some ((if b1 then [Pg.CategoryEq 1] else []) ++
        (if b2 then [Pg.LowerNameLike (if b1 then 2 else 1)] else [])).
Proof. destruct b1, b2; vm_compute; reflexivity. Qed.

Lemma like_pattern (s subject : string) :
  exists ts,
    Like.parse (Str.chars (pattern s)) = Some ts /\
    Like.like subject (pattern s) = Some (Like.matches ts (Str.chars subject)).
Proof.
  unfold pattern, Like.like.
  rewrite !StrFacts.chars_append.
  change (Str.chars "%") with [Like.percent].
  destruct (LikeFacts.parse_wrapped (Str.chars (Str.toLowerCase s))) as [ts [E _]].
  exists (Like.Any :: ts). simpl app. rewrite E. now split.
Qed.

Lemma answer_ext (f g : Pg.Row -> bool) (tbl : list Pg.Row) :
  (forall r, f r = g r) -> answer f tbl = answer g tbl.
Proof. intros H. unfold answer. now rewrite (filter_ext f g H). Qed.

Lemma select_built (c s : option string) (d : Pg.Db) :
  Pg.select (fst (build_query c s)) (snd (build_query c s)) d =
  (Pg.Ok (answer (fun r => by_category c r && by_search s r) (Pg.rows d)), d).
Proof.
  rewrite build_query_eq. unfold Pg.select, fst, snd.
  rewrite parse_select_text. unfold by_category, by_search.
  destruct (category_value c) as [cv|], (search_value s) as [sv|];
    cbn [is_some to_list option_map app Pg.compile_where Pg.compile_cond
         Pg.param nth_error];
    try (destruct (like_pattern sv EmptyString) as [ts [E _]]; rewrite E);
    f_equal; f_equal; apply answer_ext; intros r;
    unfold Like.like; try rewrite E; cbn [option_map];
    unfold Pg.lower_name_matches; now rewrite ?andb_true_r.
Qed.

(** Unless the driver call is rejected, the handler answers 200 with the
    rows that pass both filters, in [id] order, and changes nothing. *)
Lemma get_products_ok (c s : option string) (f : Faults) (w : World) :
  f AtList = false ->
  get_products c s f w =
  (Return (ok (answer (fun r => by_category c r && by_search s r) (table w))), w).
Proof.
  intros Hf. unfold get_products, try_catch, bind, pool_query, run_stmt, ret.
  pose proof (select_built c s (db w)) as H.
  destruct (build_query c s) as [base params]. cbn [fst snd] in H.
  rewrite Hf, H. destruct w; reflexivity.
Qed.

(** When the driver call is rejected, the handler answers 500. *)
Lemma get_products_rejected (c s : option string) (f : Faults) (w : World) :
  f AtList = true ->
  fst (get_products c s f w) =
  Return (mkResponse 500 (JObject [("error", "Failed to fetch products")])).
Proof.
  intros Hf. unfold get_products, try_catch, bind, pool_query.
  destruct (build_query c s) as [base params].
  rewrite Hf. reflexivity.
Qed.

End Listing.

(** ** The listing endpoint *)

Module ListingProps.
Import Server Listing.

Definition empty_world : World := mkWorld (Pg.mkDb [] 1 None 0) [] O.

(** The world after a first start on an empty database. *)
Definition seeded : World := snd (initDb no_faults empty_world).

Definition is_all (qCategory : option string) : bool :=
  match qCategory with
  | Some c => String.eqb c "all"
  | None => false
  end.

Lemma truthy_true (s : string) : s <> EmptyString -> Str.truthy s = true.
Proof. destruct s; [congruence | reflexivity]. Qed.

Lemma category_value_some (c : string) :
  c <> EmptyString -> c <> "all" -> category_value (Some c) = Some c.
Proof.
  intros H1 H2. unfold category_value. rewrite (truthy_true c H1).
  apply String.eqb_neq in H2. now rewrite H2.
Qed.

Lemma sorted_items (l : list Pg.Row) :
  StronglySorted PgFacts.id_le l ->
  StronglySorted Z.le (map Pg.i_id (map Pg.item_of l)).
Proof.
  induction 1 as [|x l Hs IH Hx]; simpl; constructor; [exact IH|].
  rewrite map_map. apply Forall_map. exact Hx.
Qed.

Lemma answer_sorted (keep : Pg.Row -> bool) (tbl : list Pg.Row) :
  StronglySorted Z.le (map Pg.i_id (answer keep tbl)).
Proof. apply sorted_items, PgFacts.order_by_id_sorted. Qed.

Lemma like_plain (s subject : string) :
  (forall ch, In ch (Str.chars s) -> Like.special ch = false) ->
  Like.like subject (pattern s) =
  Some (Str.contains (Str.toLowerCase s) subject).
Proof.
  intros Hplain. unfold Like.like, pattern, Str.contains.
  rewrite !StrFacts.chars_append.
  change (Str.chars "%") with [Like.percent].
  set (l := Str.chars (Str.toLowerCase s)).
  destruct (LikeFacts.parse_wrapped l) as [ts [E1 E2]].
  change ([Like.percent] ++ l ++ [Like.percent])
    with (Like.percent :: l ++ [Like.percent]).
  rewrite E1. cbn [option_map].
  rewrite LikeFacts.parse_plain in E2.
  - assert (Ets : ts = map Like.Lit l ++ [Like.Any]) by congruence.
    rewrite Ets. f_equal. apply LikeFacts.matches_plain_contains.
  - intros ch Hch. subst l. rewrite StrFacts.chars_toLowerCase in Hch.
    apply in_map_iff in Hch as [ch0 [<- Hin]].
    rewrite StrFacts.lower_ascii_special. now apply Hplain.
Qed.

Lemma by_search_plain (s : string) (r : Pg.Row) :
  (forall ch, In ch (Str.chars s) -> Like.special ch = false) ->
  by_search (Some s) r =
  Str.contains (Str.toLowerCase s) (Pg.lower (Pg.name r)).
Proof.
  intros Hplain. unfold by_search, search_value.
  destruct (Str.truthy s) eqn:E.
  - now rewrite like_plain.
  - destruct s; [|discriminate].
    unfold Str.contains. now destruct (Str.chars (Pg.lower (Pg.name r))).
Qed.

(** C3, as amended: a category that is present, not empty and not the
    sentinel "all" restricts the listing to the rows whose category is
    exactly that value (the comparison is case-sensitive: [category_is]
    holds of a row exactly when its category is the given string); a
    category that is absent, empty or "all" restricts nothing. *)
Theorem category_filter_exact
    (c : string) (qSearch : option string) (f : Faults) (w : World) :
  f AtList = false -> c <> EmptyString -> c <> "all" ->
  fst (get_products (Some c) qSearch f w) =
    Return (ok (answer (fun r => Pg.category_is c r && by_search qSearch r)
                       (table w))) /\
  (forall r, Pg.category_is c r = true <-> Pg.category r = Some c) /\
  fst (get_products None qSearch f w) =
    Return (ok (answer (by_search qSearch) (table w))) /\
  fst (get_products (Some "all") qSearch f w) =
    Return (ok (answer (by_search qSearch) (table w))) /\
  fst (get_products (Some EmptyString) qSearch f w) =
    Return (ok (answer (by_search qSearch) (table w))).
Proof.
  intros Hf H1 H2. rewrite !get_products_ok by exact Hf. cbn [fst].
  repeat split.
  - do 2 f_equal. apply answer_ext. intros r.
    unfold by_category. now rewrite category_value_some.
  - apply PgFacts.category_is_spec.
  - apply PgFacts.category_is_spec.
Qed.

Lemma category_filter_exact_witness :
  fst (get_products (Some "shirts") (Some "polo") no_faults seeded) =
    Return (ok (answer (fun r => Pg.category_is "shirts" r
                                 && by_search (Some "polo") r)
                       (table seeded))).
Proof.
  refine (proj1 (category_filter_exact "shirts" (Some "polo") no_faults seeded
                   eq_refl _ _)); discriminate.
Defined.

(** C3 as stated fails for a category that is present and empty: the
    listing then returns rows whose category is not the empty string. *)
Lemma category_empty_string_unrestricted :
  exists it,
    items_of (fst (get_products (Some EmptyString) None no_faults seeded))
      = Some (it :: map Pg.item_of (tl (table seeded))) /\
    Pg.i_category it = Some "tshirts" /\
    Pg.i_category it <> Some EmptyString.
Proof.
  eexists. split; [vm_compute; reflexivity|].
  split; [reflexivity | discriminate].
Qed.

(** C4, as amended: for every search term of ASCII characters that holds
    none of [%], [_] and backslash, on a table whose names are ASCII text,
    the listing is restricted to exactly the rows whose name, folded to
    lower case by the database, contains the search term, folded to lower
    case by the handler, as a substring.  (On ASCII text the two foldings
    are the same: A to Z become a to z.) *)
Theorem search_filter_substring
    (qCategory : option string) (s : string) (f : Faults) (w : World) :
  f AtList = false ->
  Str.ascii_text s = true ->
  (forall ch, In ch (Str.chars s) -> Like.special ch = false) ->
  Pg.text_opt qCategory = true ->
  forallb (fun r => Str.ascii_text (Pg.name r)) (table w) = true ->
  fst (get_products qCategory (Some s) f w) =
    Return (ok (answer
                  (fun r => by_category qCategory r &&
                            Str.contains (Str.toLowerCase s)
                                         (Pg.lower (Pg.name r)))
                  (table w))).
Proof.
  intros Hf _ Hplain _ _. rewrite get_products_ok by exact Hf. cbn [fst].
  do 2 f_equal. apply answer_ext. intros r.
  now rewrite by_search_plain.
Qed.

Lemma search_filter_substring_witness :
  fst (get_products (Some "tshirts") (Some "Shirt") no_faults seeded) =
    Return (ok (answer
                  (fun r => by_category (Some "tshirts") r &&
                            Str.contains (Str.toLowerCase "Shirt")
                                         (Pg.lower (Pg.name r)))
                  (table seeded))).
Proof.
  refine (search_filter_substring (Some "tshirts") "Shirt" no_faults seeded
            eq_refl eq_refl _ eq_refl eq_refl).
  intros ch H. simpl in H.
  repeat (destruct H as [<- | H]; [reflexivity|]). destruct H.
Defined.

(** C4 as stated fails for a search string that holds [_]: the term "_"
    returns "Denim Jacket" and every other seeded row, and none of their
    names contains an underscore. *)
Lemma search_underscore_is_wildcard :
  exists items,
    items_of (fst (get_products None (Some "_") no_faults seeded)) = Some items /\
    List.length items = 12%nat /\
    forallb (fun it => negb (Str.contains (Str.toLowerCase "_")
                                          (Pg.lower (Pg.i_name it))))
            items = true /\
    existsb (fun it => String.eqb (Pg.i_name it) "Denim Jacket") items = true.
Proof.
  eexists. split; [vm_compute; reflexivity|].
  repeat split; vm_compute; reflexivity.
Qed.

(** C5: the listing returns exactly the rows that pass the category
    filter and the search filter, each filter letting through what it
    lets through when it is used alone, and every listing that carries
    rows carries them in ascending order of id (a listing carries no rows
    only when the driver call was rejected). *)
Theorem listing_conjunction_sorted
    (qCategory qSearch : option string) (f : Faults) (w : World) :
  match items_of (fst (get_products qCategory qSearch f w)) with
  | Some items =>
      StronglySorted Z.le (map Pg.i_id items) /\
      (exists kept,
          items = map Pg.item_of kept /\
          Permutation kept
            (filter (fun r => by_category qCategory r && by_search qSearch r)
                    (table w))) /\
      items_of (fst (get_products qCategory None f w)) =
        Some (answer (by_category qCategory) (table w)) /\
      items_of (fst (get_products None qSearch f w)) =
        Some (answer (by_search qSearch) (table w))
  | None => f AtList = true
  end.
Proof.
  destruct (f AtList) eqn:Hf.
  - now rewrite get_products_rejected.
  - rewrite !get_products_ok by exact Hf. cbn [fst items_of ok body].
    split; [apply answer_sorted|]. split.
    + eexists. split; [reflexivity | apply PgFacts.order_by_id_perm].
    + split; f_equal; apply answer_ext; intros r;
        solve [apply andb_true_r | reflexivity].
Qed.

(** C8 as stated fails: two requests that both carry a category, neither
    equal to "all", get different statement texts when one of the two
    categories is the empty string. *)
Lemma text_differs_on_empty_category :
  is_some (Some EmptyString) = is_some (Some "jeans") /\
  is_all (Some EmptyString) = is_all (Some "jeans") /\
  fst (build_query (Some EmptyString) None) <>
  fst (build_query (Some "jeans") None).
Proof. repeat split. vm_compute. discriminate. Qed.

(** C8, as amended: two listing requests that agree on whether each
    filter is present and not empty, and on whether the category is
    "all", get the same statement text; the text is one of four constant
    strings, and the filter values reach the driver in the list of bound
    parameters only. *)
Theorem query_text_independent_of_values
    (c1 s1 c2 s2 : option string) :
  Str.truthy_opt c1 = Str.truthy_opt c2 ->
  is_all c1 = is_all c2 ->
  Str.truthy_opt s1 = Str.truthy_opt s2 ->
  fst (build_query c1 s1) = fst (build_query c2 s2) /\
  (exists b1 b2, fst (build_query c1 s1) = text_of b1 b2) /\
  snd (build_query c1 s1) =
    to_list (category_value c1) ++ to_list (option_map pattern (search_value s1)).
Proof.
  intros Hc Ha Hs. rewrite !build_query_eq. cbn [fst snd].
  split; [|split; [now eexists; eexists | reflexivity]].
  assert (E1 : is_some (category_value c1) = is_some (category_value c2)).
  { unfold category_value, is_all, Str.truthy_opt in *.
    destruct c1 as [c1|], c2 as [c2|]; try reflexivity.
    - rewrite Hc, Ha. now destruct (Str.truthy c2 && negb (String.eqb c2 "all")).
    - rewrite Hc. reflexivity.
    - rewrite <- Hc. reflexivity. }
  assert (E2 : is_some (search_value s1) = is_some (search_value s2)).
  { unfold search_value, Str.truthy_opt in *.
    destruct s1 as [s1|], s2 as [s2|]; try reflexivity.
    - rewrite Hs. now destruct (Str.truthy s2).
    - rewrite Hs. reflexivity.
    - rewrite <- Hs. reflexivity. }
  now rewrite E1, E2.
Qed.

Lemma query_text_independent_of_values_witness :
  fst (build_query (Some "jeans") (Some "x' OR 1=1 --")) =
  fst (build_query (Some "pants") (Some "blue")).
Proof.
  refine (proj1 (query_text_independent_of_values
                   (Some "jeans") (Some "x' OR 1=1 --")
                   (Some "pants") (Some "blue") eq_refl eq_refl eq_refl)).
Defined.

(** C10: a category or search parameter that is present and empty is
    handled exactly like one that is absent: same statement, same
    parameters, same response, same effects; in particular an empty
    category does not restrict the listing to rows of empty category. *)
Theorem empty_parameter_is_absent
    (qCategory qSearch : option string) (f : Faults) (w : World) :
  build_query (Some EmptyString) qSearch = build_query None qSearch /\
  build_query qCategory (Some EmptyString) = build_query qCategory None /\
  get_products (Some EmptyString) qSearch f w = get_products None qSearch f w /\
  get_products qCategory (Some EmptyString) f w = get_products qCategory None f w /\
  by_category (Some EmptyString) = (fun _ => true) /\
  by_search (Some EmptyString) = (fun _ => true).
Proof.
  assert (B1 : build_query (Some EmptyString) qSearch = build_query None qSearch)
    by reflexivity.
  assert (B2 : build_query qCategory (Some EmptyString) = build_query qCategory None).
  { rewrite !build_query_eq. reflexivity. }
  split; [exact B1|]. split; [exact B2|].
  split; [reflexivity|].
  split; [unfold get_products; now rewrite B2|].
  split; reflexivity.
Qed.

End ListingProps.

(** ** Seeding at startup *)

Module Seeding.
Import Server.

(** The row stored for a seed product that gets the id [n] at time [t]. *)
Definition seed_row (n t : Z) (p : Product) : Pg.Row :=
  Pg.mkRow n (Some (ext_id p)) (name p) (Some (category p)) (price p)
           (Some (image p)) (Some (stock p)) t.

Fixpoint seed_rows (n t : Z) (ps : list Product) : list Pg.Row :=
  match ps with
  | [] => []
  | p :: ps' => seed_row n t p :: seed_rows (n + 1) t ps'
  end.

(** The values of a product fit their columns. *)
Definition fits (p : Product) : bool :=
  Pg.int4 (ext_id p) && Pg.int4 (stock p) && Pg.numeric_10_2 (price p) &&
  Str.no_nul (name p) && Str.no_nul (category p) && Str.no_nul (image p).

Lemma products_fit : forallb fits products = true.
Proof. vm_compute; reflexivity. Qed.

(** Some insert of the loop, started at index [i], is rejected. *)
Fixpoint loop_rejected (f : Faults) (i : nat) (ps : list Product) : bool :=
  match ps with
  | [] => false
  | _ :: ps' => f (AtSeedInsert i) || loop_rejected f (S i) ps'
  end.

(** The products the loop, started at index [i], stores before its first
    rejected insert. *)
Fixpoint accepted (f : Faults) (i : nat) (ps : list Product) : list Product :=
  match ps with
  | [] => []
  | p :: ps' => if f (AtSeedInsert i) then [] else p :: accepted f (S i) ps'
  end.

(** Some call inside the [try] block is rejected. *)
Definition try_rejected (f : Faults) : bool :=
  f AtBegin || loop_rejected f O products || f AtCommit.

(** What the transaction holds when the [try] block is left: nothing was
    opened when BEGIN was rejected. *)
Definition held (f : Faults) (n t : Z) : option (list Pg.Row) :=
  if f AtBegin then None else Some (seed_rows n t (accepted f O products)).

(** The sequence values the [try] block has drawn. *)
Definition drawn (f : Faults) : Z :=
  if f AtBegin then 0 else Z.of_nat (List.length (accepted f O products)).

Lemma loop_rejected_iff (f : Faults) (ps : list Product) (i : nat) :
  loop_rejected f i ps = true <->
  exists k, (k < List.length ps)%nat /\ f (AtSeedInsert (i + k)) = true.
Proof.
  revert i; induction ps as [|p ps IH]; intros i; simpl.
  - split; [discriminate | intros [k [H _]]; inversion H].
  - rewrite orb_true_iff, IH. split.
    + intros [H | [k [Hk H]]].
      * exists O. rewrite Nat.add_0_r. split; [lia | exact H].
      * exists (S k). rewrite Nat.add_succ_r. split; [lia | exact H].
    + intros [[|k] [Hk H]].
      * left. now rewrite Nat.add_0_r in H.
      * right. exists k. rewrite Nat.add_succ_r in H. split; [lia | exact H].
Qed.

Lemma accepted_all (f : Faults) (ps : list Product) (i : nat) :
  loop_rejected f i ps = false -> accepted f i ps = ps.
Proof.
  revert i; induction ps as [|p ps IH]; intros i H; [reflexivity|].
  cbn in *. apply orb_false_iff in H as [H1 H2]. now rewrite H1, IH.
Qed.

Lemma make_row_seed (rws : list Pg.Row) (n t : Z) (pd : option (list Pg.Row))
    (p : Product) :
  fits p = true ->
  Pg.make_row (Pg.mkDb rws n pd t) (seed_params p) =
  (Pg.Ok (seed_row n t p), Pg.mkDb rws (n + 1) pd t).
Proof.
  unfold fits. intros H.
  apply andb_true_iff in H as [H H6]. apply andb_true_iff in H as [H H5].
  apply andb_true_iff in H as [H H4]. apply andb_true_iff in H as [H H3].
  apply andb_true_iff in H as [H1 H2].
  unfold Pg.make_row, seed_params.
  cbn [Pg.p_ext_id Pg.p_stock Pg.p_name Pg.p_category Pg.p_image Pg.p_price
       Pg.int4_opt Pg.text_opt Pg.numeric_opt].
  now rewrite H1, H2, H3, H4, H5, H6.
Qed.

(** The loop stores the products up to its first rejected insert in the
    open transaction and stops there; it never touches the committed
    rows, and what it has stored stays in the transaction. *)
Lemma seed_loop_spec (f : Faults) (ps : list Product) :
  forallb fits ps = true ->
  forall (i : nat) (rws l : list Pg.Row) (n t : Z) (log : list LogLine) (k : nat),
    seed_loop i ps f (mkWorld (Pg.mkDb rws n (Some l) t) log k) =
    (if loop_rejected f i ps then Throw Pg.ConnectionLost else Return tt,
     mkWorld (Pg.mkDb rws (n + Z.of_nat (List.length (accepted f i ps)))
                      (Some (l ++ seed_rows n t (accepted f i ps))) t) log k).
Proof.
  induction ps as [|p ps IH]; intros Hfit i rws l n t log k.
  - cbn. now rewrite app_nil_r, Z.add_0_r.
  - simpl in Hfit. apply andb_true_iff in Hfit as [Hp Hps].
    cbn [seed_loop loop_rejected accepted].
    unfold bind at 1, client_query at 1.
    destruct (f (AtSeedInsert i)) eqn:Ef; cbn [orb].
    + cbn. now rewrite app_nil_r, Z.add_0_r.
    + unfold run_stmt, Pg.client_insert. cbn [db].
      rewrite (make_row_seed _ _ _ _ _ Hp). cbn.
      unfold set_db, Pg.with_pending. cbn.
      rewrite (IH Hps (S i) rws (l ++ [seed_row n t p]) (n + 1) t log k).
      rewrite <- app_assoc. cbn [app]. do 3 f_equal. lia.
Qed.

(** What the seeding transaction leaves behind, for every choice of
    rejected calls.  With nothing rejected the twelve rows are committed.
    With a call of the [try] block rejected, the ROLLBACK of the [catch]
    block empties the transaction; when the ROLLBACK is rejected too, the
    transaction is still open, with what it held, and the error goes on.
    The connection is released on every way out. *)
Lemma seed_transaction_exact (f : Faults)
    (rws : list Pg.Row) (n t : Z) (log : list LogLine) (k : nat) :
  seed_transaction f (mkWorld (Pg.mkDb rws n None t) log (S k)) =
  if try_rejected f then
    if f AtRollback
    then (Throw Pg.ConnectionLost,
          mkWorld (Pg.mkDb rws (n + drawn f) (held f n t) t) log k)
    else (Return tt,
          mkWorld (Pg.mkDb rws (n + drawn f) None t)
                  (log ++ [LogError "Error seeding products:"
                                    (Some Pg.ConnectionLost)]) k)
  else (Return tt,
        mkWorld (Pg.mkDb (rws ++ seed_rows n t products) (n + 12) None t)
                (log ++ [Log "Seed complete."]) k).
Proof.
  unfold seed_transaction, finally, try_catch, try_rejected, held, drawn.
  unfold bind at 1, client_query at 1.
  destruct (f AtBegin) eqn:Eb; cbn [orb].
  { unfold bind, client_query. rewrite Z.add_0_r.
    destruct (f AtRollback); reflexivity. }
  unfold run_stmt at 1, Pg.begin at 1, set_db at 1, Pg.with_pending at 1.
  cbn [db console leased Pg.rows Pg.next_id Pg.pending Pg.clock].
  unfold bind at 1.
  rewrite (seed_loop_spec f products products_fit O rws [] n t log (S k)).
  cbn [app].
  destruct (loop_rejected f O products) eqn:El; cbn [orb].
  { unfold bind, client_query. destruct (f AtRollback); reflexivity. }
  rewrite (accepted_all f products O El).
  unfold bind at 1, client_query at 1.
  destruct (f AtCommit) eqn:Ec.
  { unfold bind, client_query. destruct (f AtRollback); reflexivity. }
  reflexivity.
Qed.

Lemma seed_transaction_spec (f : Faults)
    (rws : list Pg.Row) (n t : Z) (log : list LogLine) (k : nat) :
  exists n' pd,
    seed_transaction f (mkWorld (Pg.mkDb rws n None t) log (S k)) =
    if try_rejected f then
      if f AtRollback
      then (Throw Pg.ConnectionLost, mkWorld (Pg.mkDb rws n' pd t) log k)
      else (Return tt,
            mkWorld (Pg.mkDb rws n' None t)
                    (log ++ [LogError "Error seeding products:"
                                      (Some Pg.ConnectionLost)]) k)
    else (Return tt,
          mkWorld (Pg.mkDb (rws ++ seed_rows n t products) n' None t)
                  (log ++ [Log "Seed complete."]) k).
Proof.
  rewrite seed_transaction_exact.
  destruct (try_rejected f); [|now exists (n + 12), None].
  now exists (n + drawn f), (held f n t).
Qed.

Definition start (tbl : list Pg.Row) (n t : Z) (log : list LogLine) (k : nat)
  : World :=
  mkWorld (Pg.mkDb tbl n None t) log k.

(** [initDb] up to the transaction, on a database that an earlier process
    may have left with a transaction open. *)
Lemma initDb_spec_open (f : Faults) (tbl : list Pg.Row) (n t : Z)
    (pd : option (list Pg.Row)) (log : list LogLine) (k : nat) :
  initDb f (mkWorld (Pg.mkDb tbl n pd t) log k) =
  if f AtCreateTable
  then (Throw Pg.ConnectionLost, mkWorld (Pg.mkDb tbl n pd t) log k)
  else if f AtCount
  then (Throw Pg.ConnectionLost, mkWorld (Pg.mkDb tbl n pd t) log k)
  else
    match tbl with
    | _ :: _ =>
        if Pg.int4 (Z.of_nat (List.length tbl))
        then (Return tt,
              mkWorld (Pg.mkDb tbl n pd t)
                      (log ++ [Log (skip_message (Z.of_nat (List.length tbl)))]) k)
        else (Throw (Pg.OutOfRange "cnt"), mkWorld (Pg.mkDb tbl n pd t) log k)
    | [] =>
        if f AtConnect
        then (Throw Pg.ConnectionLost,
              mkWorld (Pg.mkDb [] n pd t)
                      (log ++ [Log "Seeding products table..."]) k)
        else seed_transaction f
               (mkWorld (Pg.mkDb [] n None t)
                        (log ++ [Log "Seeding products table..."]) (S k))
    end.
Proof.
  unfold initDb. unfold bind at 1, pool_query at 1.
  destruct (f AtCreateTable); [reflexivity|].
  unfold run_stmt at 1, Pg.create_table, set_db at 1. cbn [db console leased].
  unfold bind at 1, pool_query at 1.
  destruct (f AtCount); [reflexivity|].
  unfold run_stmt at 1, Pg.count.
  cbn [db console leased Pg.rows].
  destruct tbl as [|r tbl].
  - change (Pg.int4 (Z.of_nat (List.length (@nil Pg.Row)))) with true.
    change (Z.of_nat (List.length (@nil Pg.Row))) with 0.
    cbv iota. unfold set_db at 1. cbn [db console leased Z.eqb].
    unfold bind at 1, console_log at 1. cbn [db console leased].
    unfold bind at 1, pool_connect at 1.
    destruct (f AtConnect); reflexivity.
  - destruct (Pg.int4 (Z.of_nat (List.length (r :: tbl)))); [|reflexivity].
    change (Z.of_nat (List.length (r :: tbl)) =? 0) with false. cbv iota.
    reflexivity.
Qed.

(** [initDb] up to the transaction. *)
Lemma initDb_spec (f : Faults)
    (tbl : list Pg.Row) (n t : Z) (log : list LogLine) (k : nat) :
  initDb f (start tbl n t log k) =
  if f AtCreateTable then (Throw Pg.ConnectionLost, start tbl n t log k)
  else if f AtCount then (Throw Pg.ConnectionLost, start tbl n t log k)
  else
    match tbl with
    | _ :: _ =>
        if Pg.int4 (Z.of_nat (List.length tbl))
        then (Return tt,
              start tbl n t
                    (log ++ [Log (skip_message (Z.of_nat (List.length tbl)))]) k)
        else (Throw (Pg.OutOfRange "cnt"), start tbl n t log k)
    | [] =>
        if f AtConnect
        then (Throw Pg.ConnectionLost,
              start [] n t (log ++ [Log "Seeding products table..."]) k)
        else seed_transaction f
               (start [] n t (log ++ [Log "Seeding products table..."]) (S k))
    end.
Proof. apply initDb_spec_open. Qed.

Lemma seed_rows_length (n t : Z) (ps : list Product) :
  List.length (seed_rows n t ps) = List.length ps.
Proof.
  revert n; induction ps as [|p ps IH]; intros n; simpl; [reflexivity|].
  now rewrite IH.
Qed.

(** The table after [initDb], for every choice of rejected calls: the
    table as it was, or, when it was empty, the whole sample set. *)
Lemma initDb_table (f : Faults)
    (tbl : list Pg.Row) (n t : Z) (log : list LogLine) (k : nat) :
  table (snd (initDb f (start tbl n t log k))) = tbl \/
  (tbl = [] /\
   table (snd (initDb f (start tbl n t log k))) = seed_rows n t products).
Proof.
  rewrite initDb_spec.
  destruct (f AtCreateTable); [now left|].
  destruct (f AtCount); [now left|].
  destruct tbl as [|r tbl];
    [|destruct (Pg.int4 (Z.of_nat (List.length (r :: tbl)))); now left].
  destruct (f AtConnect); [now left|].
  destruct (seed_transaction_spec f [] n t
              (log ++ [Log "Seeding products table..."]) k) as [n' [pd E]].
  unfold start. rewrite E.
  destruct (try_rejected f); [destruct (f AtRollback); now left|].
  right. split; reflexivity.
Qed.

(** C1: the seeder inserts the twelve sample products exactly when the
    table is empty at startup.  On an empty table it stores the twelve
    rows; on a table with at least one row it stores nothing, whatever
    else happens, and a table with a single stray row is skipped with the
    skip message; whatever calls are rejected, the table changes only if
    it was empty, and then to the whole sample set; and a second start
    after the first leaves the sample set in the table once. *)
Theorem seeding_iff_table_empty
    (f : Faults) (r : Pg.Row) (tbl : list Pg.Row)
    (n t : Z) (log : list LogLine) (k : nat) :
  table (snd (initDb no_faults (start [] n t log k))) = seed_rows n t products /\
  List.length (seed_rows n t products) = 12%nat /\
  map Pg.name (seed_rows n t products) = map name products /\
  table (snd (initDb f (start (r :: tbl) n t log k))) = r :: tbl /\
  initDb no_faults (start [r] n t log k) =
    (Return tt,
     start [r] n t
           (log ++ [Log "Products table already has 1 rows, skip seeding."]) k) /\
  (table (snd (initDb f (start tbl n t log k))) = tbl \/
   (tbl = [] /\
    table (snd (initDb f (start tbl n t log k))) = seed_rows n t products)) /\
  table (snd (initDb no_faults (snd (initDb no_faults (start [] n t log k)))))
    = seed_rows n t products.
Proof.
  assert (First : exists n',
             initDb no_faults (start [] n t log k) =
             (Return tt,
              start (seed_rows n t products) n' t
                    ((log ++ [Log "Seeding products table..."])
                       ++ [Log "Seed complete."]) k)).
  { rewrite initDb_spec. cbn [no_faults].
    destruct (seed_transaction_spec no_faults [] n t
                (log ++ [Log "Seeding products table..."]) k) as [n' [pd E]].
    exists n'. unfold start. rewrite E. reflexivity. }
  destruct First as [n' First].
  split; [now rewrite First|].
  split; [reflexivity|].
  split; [reflexivity|].
  split.
  { destruct (initDb_table f (r :: tbl) n t log k) as [H | [H _]];
      [exact H | discriminate]. }
  split; [now rewrite initDb_spec|].
  split; [apply initDb_table|].
  rewrite First. cbn [snd]. rewrite initDb_spec. reflexivity.
Qed.

Lemma rejected_insert (f : Faults) (i : nat) :
  (i < 12)%nat -> f (AtSeedInsert i) = true -> try_rejected f = true.
Proof.
  intros Hi Hf. unfold try_rejected.
  assert (H : loop_rejected f O products = true).
  { apply loop_rejected_iff. exists i. split; [exact Hi | exact Hf]. }
  rewrite H. now rewrite orb_true_r.
Qed.

(** C2, as amended: the twelve inserts are atomic (for every choice of
    rejected calls the table ends as it was or with all twelve rows).
    When an insert is rejected the [catch] block issues ROLLBACK.  If the
    ROLLBACK goes through, the transaction is emptied, the table is
    unchanged, the error is logged, the connection is released, [initDb]
    returns and the bootstrap goes on to [app.listen]: the process
    listens unless [app.listen] itself fails.  If the ROLLBACK is
    rejected as well, the error leaves [initDb], the transaction is left
    open with the rows it held (none of them committed), the connection
    is released all the same, and the process exits with code 1. *)
Theorem seeding_atomic_and_nonfatal
    (e : Env) (f : Faults) (i : nat)
    (n t : Z) (log : list LogLine) (k : nat) :
  Str.truthy_opt (DATABASE_URL e) = true ->
  f AtCreateTable = false -> f AtCount = false -> f AtConnect = false ->
  (i < 12)%nat -> f (AtSeedInsert i) = true ->
  (forall g : Faults,
      table (snd (initDb g (start [] n t log k))) = [] \/
      table (snd (initDb g (start [] n t log k))) = seed_rows n t products) /\
  table (snd (initDb f (start [] n t log k))) = [] /\
  leased (snd (initDb f (start [] n t log k))) = k /\
  if f AtRollback then
    fst (initDb f (start [] n t log k)) = Throw Pg.ConnectionLost /\
    Pg.pending (db (snd (initDb f (start [] n t log k)))) = held f n t /\
    fst (main e f (start [] n t log k)) = Exited 1
  else
    fst (initDb f (start [] n t log k)) = Return tt /\
    Pg.pending (db (snd (initDb f (start [] n t log k)))) = None /\
    console (snd (initDb f (start [] n t log k))) =
      log ++ [Log "Seeding products table...";
              LogError "Error seeding products:" (Some Pg.ConnectionLost)] /\
    fst (main e f (start [] n t log k)) =
      if listen_throws f (port_of e) || f AtBind
      then Exited 1
      else Listening (port_of e).
Proof.
  intros Hurl Hc Hn Hk Hi Hf.
  split.
  { intros g. destruct (initDb_table g [] n t log k) as [H | [_ H]];
      [now left | now right]. }
  assert (E : initDb f (start [] n t log k) =
              if f AtRollback
              then (Throw Pg.ConnectionLost,
                    mkWorld (Pg.mkDb [] (n + drawn f) (held f n t) t)
                            (log ++ [Log "Seeding products table..."]) k)
              else (Return tt,
                    mkWorld (Pg.mkDb [] (n + drawn f) None t)
                            ((log ++ [Log "Seeding products table..."])
                               ++ [LogError "Error seeding products:"
                                            (Some Pg.ConnectionLost)]) k)).
  { rewrite initDb_spec, Hc, Hn, Hk. unfold start.
    rewrite seed_transaction_exact.
    now rewrite (rejected_insert f i Hi Hf). }
  unfold main. rewrite Hurl. cbn [negb]. rewrite E.
  destruct (f AtRollback); cbn [fst snd table db leased console Pg.rows Pg.pending].
  - repeat split.
  - repeat split.
    + now rewrite <- app_assoc.
    + destruct (listen_throws f (port_of e)); [reflexivity|].
      destruct (f AtBind); reflexivity.
Qed.

(** The faults of the witness: the insert of the fourth product is
    rejected. *)
Definition fourth_insert_rejected : Faults :=
  fun s => match s with AtSeedInsert 3 => true | _ => false end.

Lemma seeding_atomic_and_nonfatal_witness :
  fst (main (mkEnv (Some "postgres://db") None) fourth_insert_rejected
            (start [] 1 0 [] O)) = Listening (PortNumber 3000) /\
  table (snd (initDb fourth_insert_rejected (start [] 1 0 [] O))) = [] /\
  Pg.pending (db (snd (initDb fourth_insert_rejected (start [] 1 0 [] O))))
    = None.
Proof.
  pose proof (seeding_atomic_and_nonfatal
                (mkEnv (Some "postgres://db") None) fourth_insert_rejected
                3%nat 1 0 [] O eq_refl eq_refl eq_refl eq_refl
                ltac:(lia) eq_refl) as H.
  cbn [fourth_insert_rejected] in H.
  split; [apply H|]. split; apply H.
Defined.

(** The faults of the counterexample: the insert of the fourth product
    is rejected, and so is the ROLLBACK of the [catch] block. *)
Definition insert_and_rollback_rejected : Faults :=
  fun s =>
    match s with
    | AtSeedInsert 3 => true
    | AtRollback => true
    | _ => false
    end.

(** C2 as stated fails: when the ROLLBACK issued after a failed insert is
    rejected as well, the error leaves [initDb] and the process exits
    with code 1 instead of listening. *)
Lemma rollback_failure_aborts_startup :
  insert_and_rollback_rejected (AtSeedInsert 3) = true /\
  fst (main (mkEnv (Some "postgres://db") None) insert_and_rollback_rejected
            (start [] 1 0 [] O)) = Exited 1.
Proof. split; vm_compute; reflexivity. Qed.

End Seeding.

(** ** The create endpoint *)

Module Create.
Import Server.

Definition creation_failed : Response :=
  mkResponse 500 (JObject [("error", "Failed to create product")]).

(** The row a create request stores when it gets the id [n] at time [t]. *)
Definition created_row (n t : Z) (b : Body) (nm : string) (h : Z) : Pg.Row :=
  Pg.mkRow n (or_null (b_ext_id b)) nm (b_category b) h (b_image b)
           (or_zero (b_stock b)) t.

Lemma make_row_rows (d : Pg.Db) (p : Pg.InsertParams) :
  Pg.rows (snd (Pg.make_row d p)) = Pg.rows d /\
  Pg.pending (snd (Pg.make_row d p)) = Pg.pending d.
Proof.
  unfold Pg.make_row.
  destruct (negb (Pg.int4_opt (Pg.p_ext_id p))); [now split|].
  destruct (negb (Pg.int4_opt (Pg.p_stock p))); [now split|].
  destruct (negb (Pg.text_opt (Pg.p_name p))); [now split|].
  destruct (negb (Pg.text_opt (Pg.p_category p))); [now split|].
  destruct (negb (Pg.text_opt (Pg.p_image p))); [now split|].
  destruct (negb (Pg.numeric_opt (Pg.p_price p))); [now split|].
  destruct (Pg.p_name p), (Pg.p_price p) as [h|]; now split.
Qed.

(** [name] and [price] are [NOT NULL]. *)
Lemma make_row_required (d : Pg.Db) (p : Pg.InsertParams) :
  Pg.p_name p = None \/ Pg.p_price p = None ->
  exists e, fst (Pg.make_row d p) = Pg.Fail e.
Proof.
  intros H. unfold Pg.make_row.
  destruct (negb (Pg.int4_opt (Pg.p_ext_id p))); [now eexists|].
  destruct (negb (Pg.int4_opt (Pg.p_stock p))); [now eexists|].
  destruct (negb (Pg.text_opt (Pg.p_name p))); [now eexists|].
  destruct (negb (Pg.text_opt (Pg.p_category p))); [now eexists|].
  destruct (negb (Pg.text_opt (Pg.p_image p))); [now eexists|].
  destruct (negb (Pg.numeric_opt (Pg.p_price p))); [now eexists|].
  destruct (Pg.p_name p), (Pg.p_price p) as [h|]; try (now eexists).
  destruct H; discriminate.
Qed.

(** A request that the database accepts: the row is stored with the next
    id and the current time, and comes back with status 201. *)
Lemma post_products_created
    (b : Body) (nm : string) (h : Z) (f : Faults)
    (tbl : list Pg.Row) (n t : Z) (log : list LogLine) (k : nat) :
  f AtCreate = false ->
  b_name b = Some nm -> b_price b = Some h -> Pg.numeric_10_2 h = true ->
  Pg.int4_opt (or_null (b_ext_id b)) = true ->
  Pg.int4_opt (or_zero (b_stock b)) = true ->
  Str.no_nul nm = true ->
  Pg.text_opt (b_category b) = true -> Pg.text_opt (b_image b) = true ->
  post_products b f (mkWorld (Pg.mkDb tbl n None t) log k) =
  (Return (mkResponse 201 (JRow (Some (created_row n t b nm h)))),
   mkWorld (Pg.mkDb (tbl ++ [created_row n t b nm h]) (n + 1) None t) log k).
Proof.
  intros Hf Hn Hp Hh He Hs Ht Hc Hi.
  unfold post_products, try_catch, bind, pool_query, run_stmt,
    Pg.pool_insert_returning, Pg.make_row, create_params.
  cbn [Pg.p_ext_id Pg.p_stock Pg.p_name Pg.p_price Pg.p_category Pg.p_image db].
  rewrite Hf, He, Hs, Hn, Hp, Hc, Hi.
  cbn [Pg.text_opt Pg.numeric_opt]. rewrite Ht, Hh. reflexivity.
Qed.

Lemma or_null_nonzero (z : Z) : z <> 0 -> or_null (Some z) = Some z.
Proof. intros H. unfold or_null. apply Z.eqb_neq in H. now rewrite H. Qed.

Lemma or_zero_some (z : Z) : or_zero (Some z) = Some z.
Proof. unfold or_zero. destruct (z =? 0) eqn:E; [|reflexivity].
  apply Z.eqb_eq in E. now subst. Qed.

(** A request that leaves out [ext_id] and [stock] stores [ext_id = null]
    and [stock = 0]; a non-zero [ext_id] and any [stock] are stored as
    they come. *)
Lemma post_products_defaults
    (nm : string) (cat img : option string) (h : Z) (f : Faults)
    (tbl : list Pg.Row) (n t : Z) (log : list LogLine) (k : nat) :
  f AtCreate = false -> Pg.numeric_10_2 h = true ->
  Str.no_nul nm = true -> Pg.text_opt cat = true -> Pg.text_opt img = true ->
  post_products (mkBody (Some nm) cat (Some h) img None None) f
                (mkWorld (Pg.mkDb tbl n None t) log k) =
  (Return (mkResponse 201
             (JRow (Some (Pg.mkRow n None nm cat h img (Some 0) t)))),
   mkWorld (Pg.mkDb (tbl ++ [Pg.mkRow n None nm cat h img (Some 0) t])
                    (n + 1) None t) log k).
Proof.
  intros Hf Hh Ht Hc Hi.
  now rewrite (post_products_created (mkBody (Some nm) cat (Some h) img None None)
                 nm h f tbl n t log k Hf eq_refl eq_refl Hh eq_refl eq_refl
                 Ht Hc Hi).
Qed.

(** A request that supplies [ext_id] as 0. *)
Definition belt : Body :=
  mkBody (Some "Leather Belt") (Some "accessories") (Some 1500) None
         (Some 7) (Some 0).

(** C6 at the failing input: a create request that supplies [ext_id: 0]
    succeeds with status 201, and the row that is stored and returned has
    a null [ext_id], not 0. *)
Theorem create_zero_ext_id_stored_as_null :
  b_ext_id belt = Some 0 /\
  exists r,
    post_products belt no_faults ListingProps.seeded =
      (Return (mkResponse 201 (JRow (Some r))),
       mkWorld (Pg.mkDb (table ListingProps.seeded ++ [r]) 14 None 0)
               (console ListingProps.seeded) O) /\
    Pg.ext_id r = None /\
    Pg.id r = 13 /\ Pg.stock r = Some 7 /\ Pg.name r = "Leather Belt".
Proof.
  split; [reflexivity|]. eexists. split; [vm_compute; reflexivity|].
  repeat split.
Qed.

(** C7: a create request without [name] or without [price] is answered
    with status 500 and the body [{error: Failed to create product}],
    whatever the error was; the error itself goes to the console only,
    and the table is left as it was. *)
Theorem create_without_required_field_fails
    (b : Body) (f : Faults) (w : World) :
  b_name b = None \/ b_price b = None ->
  fst (post_products b f w) = Return creation_failed /\
  table (snd (post_products b f w)) = table w /\
  List.length (table (snd (post_products b f w))) = List.length (table w) /\
  exists err,
    console (snd (post_products b f w)) =
    console w ++ [LogError "POST /api/products error" (Some err)].
Proof.
  intros H.
  unfold post_products, try_catch, bind, pool_query.
  destruct (f AtCreate).
  { cbn. repeat split. now eexists. }
  unfold run_stmt, Pg.pool_insert_returning.
  destruct (make_row_required (db w) (create_params b) H) as [e He].
  pose proof (make_row_rows (db w) (create_params b)) as [Hr _].
  destruct (Pg.make_row (db w) (create_params b)) as [[r|e'] d'];
    cbn [fst snd] in *; [discriminate|].
  cbn. unfold table. cbn. rewrite Hr. repeat split. now eexists.
Qed.

Lemma create_without_required_field_fails_witness :
  fst (post_products (mkBody None (Some "jeans") (Some 4999) None None None)
                     no_faults ListingProps.seeded) = Return creation_failed /\
  table (snd (post_products
                (mkBody None (Some "jeans") (Some 4999) None None None)
                no_faults ListingProps.seeded)) = table ListingProps.seeded.
Proof.
  pose proof (create_without_required_field_fails
                (mkBody None (Some "jeans") (Some 4999) None None None)
                no_faults ListingProps.seeded (or_introl eq_refl)) as H.
  split; apply H.
Defined.

End Create.

(** ** Bootstrap *)

Module Bootstrap.
Import Server.

Definition log_error (w : World) (msg : string) (err : option Pg.Err) : World :=
  mkWorld (db w) (console w ++ [LogError msg err]) (leased w).

(** C9: without a connection string the process logs the error and exits
    with code 1, the database untouched and no call made to it; the port
    is 3000 when [PORT] is not set; and when the schema statement fails
    the process exits with code 1 and does not listen.  In every other
    case the process exits with code 1 or listens on the configured
    port. *)
Theorem bootstrap_outcome (e : Env) (f : Faults) (w : World) :
  (if negb (Str.truthy_opt (DATABASE_URL e))
   then main e f w = (Exited 1, log_error w "DATABASE_URL missing in .env" None)
   else if f AtCreateTable
   then main e f w =
        (Exited 1, log_error w "DB init failed:" (Some Pg.ConnectionLost))
   else fst (main e f w) = Exited 1 \/ fst (main e f w) = Listening (port_of e)) /\
  port_of (mkEnv (DATABASE_URL e) None) = PortNumber 3000 /\
  fst (main (mkEnv (Some "postgres://db") None) no_faults
            ListingProps.empty_world) = Listening (PortNumber 3000).
Proof.
  split; [|split; [reflexivity | vm_compute; reflexivity]].
  unfold main.
  destruct (negb (Str.truthy_opt (DATABASE_URL e))); [reflexivity|].
  destruct (f AtCreateTable) eqn:Ec.
  - unfold initDb. unfold bind at 1, pool_query at 1. rewrite Ec. reflexivity.
  - destruct (initDb f w) as [[u|err] w']; [|now left].
    destruct (listen_throws f (port_of e)); [now left|].
    destruct (f AtBind); [left | right]; reflexivity.
Qed.

End Bootstrap.

(** * Further properties of the program *)

(** ** The primary key: ids are unique and below the sequence *)

Module Keys.
Import Server.

(** The rows the database holds, committed or in the open transaction. *)
Definition all_rows (d : Pg.Db) : list Pg.Row :=
  Pg.rows d ++ match Pg.pending d with Some l => l | None => [] end.

(** No two rows share an id, and every id was drawn from the sequence. *)
Definition key_ok (d : Pg.Db) : Prop :=
  NoDup (map Pg.id (all_rows d)) /\
  Forall (fun r => Pg.id r < Pg.next_id d) (all_rows d).

(** A statement keeps the key and never moves the sequence back. *)
Definition stmt_safe {A} (stmt : Pg.Db -> Pg.result A * Pg.Db) : Prop :=
  forall d, key_ok d ->
    key_ok (snd (stmt d)) /\ Pg.next_id d <= Pg.next_id (snd (stmt d)).

(** The same for a piece of the program, whatever calls are rejected and
    whether it returns or throws. *)
Definition safe {A} (m : M A) : Prop :=
  forall f w, key_ok (db w) ->
    key_ok (db (snd (m f w))) /\
    Pg.next_id (db w) <= Pg.next_id (db (snd (m f w))).

Lemma key_ok_same (d d' : Pg.Db) :
  all_rows d' = all_rows d -> Pg.next_id d <= Pg.next_id d' ->
  key_ok d -> key_ok d'.
Proof.
  intros E Hn [Hd Hf]. unfold key_ok. rewrite E. split; [exact Hd|].
  eapply Forall_impl; [|exact Hf]. cbv beta. intros; lia.
Qed.

Lemma key_ok_add (d d' : Pg.Db) (r : Pg.Row) :
  Permutation (all_rows d') (r :: all_rows d) ->
  Pg.id r = Pg.next_id d -> Pg.next_id d < Pg.next_id d' ->
  key_ok d -> key_ok d'.
Proof.
  intros P Hr Hn [Hd Hf]. split.
  - eapply Permutation_NoDup; [symmetry; apply Permutation_map, P|].
    cbn [map]. constructor; [|exact Hd].
    intros Hin. apply in_map_iff in Hin as [x [Ex Hx]].
    rewrite Forall_forall in Hf. specialize (Hf x Hx). lia.
  - eapply Permutation_Forall; [symmetry; exact P|].
    constructor; [lia|].
    eapply Forall_impl; [|exact Hf]. cbv beta. intros; lia.
Qed.

Lemma key_ok_drop_pending (d : Pg.Db) :
  key_ok d -> key_ok (Pg.with_pending d None).
Proof.
  intros [Hd Hf]. unfold key_ok, all_rows in *. cbn [Pg.with_pending Pg.rows Pg.pending Pg.next_id].
  rewrite app_nil_r. rewrite map_app in Hd.
  split; [eapply NoDup_app_remove_r; exact Hd|].
  apply Forall_app in Hf. apply Hf.
Qed.

Lemma make_row_cases (d : Pg.Db) (p : Pg.InsertParams) :
  (exists e, Pg.make_row d p = (Pg.Fail e, d)) \/
  (exists e, Pg.make_row d p = (Pg.Fail e, Pg.bump d)) \/
  (exists r, Pg.make_row d p = (Pg.Ok r, Pg.bump d) /\
             Pg.id r = Pg.next_id d /\ Pg.created_at r = Pg.clock d /\
             Pg.ext_id r = Pg.p_ext_id p /\ Pg.stock r = Pg.p_stock p /\
             Pg.p_name p = Some (Pg.name r) /\ Pg.p_price p = Some (Pg.price r) /\
             Pg.category r = Pg.p_category p /\ Pg.image r = Pg.p_image p).
Proof.
  unfold Pg.make_row.
  destruct (negb (Pg.int4_opt (Pg.p_ext_id p))); [left; now eexists|].
  destruct (negb (Pg.int4_opt (Pg.p_stock p))); [left; now eexists|].
  destruct (negb (Pg.text_opt (Pg.p_name p))); [left; now eexists|].
  destruct (negb (Pg.text_opt (Pg.p_category p))); [left; now eexists|].
  destruct (negb (Pg.text_opt (Pg.p_image p))); [left; now eexists|].
  destruct (negb (Pg.numeric_opt (Pg.p_price p))); [left; now eexists|].
  destruct (Pg.p_name p) as [nm|]; [|right; left; now eexists].
  destruct (Pg.p_price p) as [h|]; [|right; left; now eexists].
  right; right. eexists. split; [reflexivity|]. cbn. repeat split.
Qed.

Lemma key_ok_bump (d : Pg.Db) : key_ok d -> key_ok (Pg.bump d).
Proof.
  apply key_ok_same; [reflexivity | cbn; lia].
Qed.

Lemma safe_create_table : stmt_safe Pg.create_table.
Proof. intros d H. cbn. split; [exact H | lia]. Qed.

Lemma safe_count : stmt_safe Pg.count.
Proof.
  intros d H. unfold Pg.count.
  destruct (Pg.int4 (Z.of_nat (List.length (Pg.rows d)))); cbn;
    (split; [exact H | lia]).
Qed.

Lemma safe_begin : stmt_safe Pg.begin.
Proof.
  intros d H. unfold Pg.begin. cbn [snd].
  destruct (Pg.pending d) eqn:E; [split; [exact H | lia]|].
  split; [|cbn; lia].
  revert H. apply key_ok_same; [|cbn; lia].
  unfold all_rows. cbn. now rewrite E.
Qed.

Lemma safe_commit : stmt_safe Pg.commit.
Proof.
  intros d H. unfold Pg.commit. cbn [snd].
  destruct (Pg.pending d) eqn:E; [|split; [exact H | lia]].
  split; [|cbn; lia].
  revert H. apply key_ok_same; [|cbn; lia].
  unfold all_rows. cbn. now rewrite E, app_nil_r.
Qed.

Lemma safe_rollback : stmt_safe Pg.rollback.
Proof.
  intros d H. unfold Pg.rollback. cbn [snd].
  split; [now apply key_ok_drop_pending | cbn; lia].
Qed.

Lemma safe_client_insert (p : Pg.InsertParams) : stmt_safe (Pg.client_insert p).
Proof.
  intros d H. unfold Pg.client_insert.
  destruct (make_row_cases d p) as [[e E] | [[e E] | [r [E [Hid _]]]]];
    rewrite E; cbn [snd].
  - split; [exact H | lia].
  - split; [now apply key_ok_bump | cbn; lia].
  - cbn [Pg.bump Pg.pending].
    destruct (Pg.pending d) as [l|] eqn:Ep.
    + split; [|cbn; lia].
      apply (key_ok_add d _ r); [|exact Hid|cbn; lia|exact H].
      unfold all_rows. cbn. rewrite Ep, app_assoc.
      apply Permutation_sym, Permutation_cons_append.
    + split; [|cbn; lia].
      apply (key_ok_add d _ r); [|exact Hid|cbn; lia|exact H].
      unfold all_rows. cbn. rewrite Ep, !app_nil_r.
      apply Permutation_sym, Permutation_cons_append.
Qed.

Lemma safe_pool_insert (p : Pg.InsertParams) :
  stmt_safe (Pg.pool_insert_returning p).
Proof.
  intros d H. unfold Pg.pool_insert_returning.
  destruct (make_row_cases d p) as [[e E] | [[e E] | [r [E [Hid _]]]]];
    rewrite E; cbn [snd].
  - split; [exact H | lia].
  - split; [now apply key_ok_bump | cbn; lia].
  - split; [|cbn; lia].
    apply (key_ok_add d _ r); [|exact Hid|cbn; lia|exact H].
    unfold all_rows. cbn.
    rewrite <- app_assoc. cbn [app].
    apply Permutation_sym, Permutation_middle.
Qed.

Lemma safe_select (text : string) (params : list string) :
  stmt_safe (Pg.select text params).
Proof.
  intros d H. unfold Pg.select.
  destruct (Pg.parse_select text); [|cbn; split; [exact H | lia]].
  destruct (Pg.compile_where params l); cbn; (split; [exact H | lia]).
Qed.

(** *** The pieces of the program *)

Lemma safe_ret {A} (a : A) : safe (ret a).
Proof. intros f w H. cbn. split; [exact H | lia]. Qed.

Lemma safe_bind {A B} (m : M A) (k : A -> M B) :
  safe m -> (forall a, safe (k a)) -> safe (bind m k).
Proof.
  intros Hm Hk f w H. unfold bind.
  destruct (Hm f w H) as [H1 L1].
  destruct (m f w) as [[a|e] w1]; cbn [snd] in *; [|now split].
  destruct (Hk a f w1 H1) as [H2 L2]. split; [exact H2 | lia].
Qed.

Lemma safe_try_catch {A} (m : M A) (h : Pg.Err -> M A) :
  safe m -> (forall e, safe (h e)) -> safe (try_catch m h).
Proof.
  intros Hm Hh f w H. unfold try_catch.
  destruct (Hm f w H) as [H1 L1].
  destruct (m f w) as [[a|e] w1]; cbn [snd] in *; [now split|].
  destruct (Hh e f w1 H1) as [H2 L2]. split; [exact H2 | lia].
Qed.

Lemma safe_finally {A} (m : M A) (fin : M unit) :
  safe m -> safe fin -> safe (finally m fin).
Proof.
  intros Hm Hfin f w H. unfold finally.
  destruct (Hm f w H) as [H1 L1].
  destruct (m f w) as [o w1]; cbn [snd] in *.
  destruct (Hfin f w1 H1) as [H2 L2].
  destruct (fin f w1) as [[u|e] w2]; cbn [snd] in *; (split; [exact H2 | lia]).
Qed.

Lemma safe_console_log (msg : string) : safe (console_log msg).
Proof. intros f w H. cbn. split; [exact H | lia]. Qed.

Lemma safe_console_error (msg : string) (err : option Pg.Err) :
  safe (console_error msg err).
Proof. intros f w H. cbn. split; [exact H | lia]. Qed.

Lemma safe_run_stmt {A} (stmt : Pg.Db -> Pg.result A * Pg.Db) (w : World) :
  stmt_safe stmt -> key_ok (db w) ->
  key_ok (db (snd (run_stmt stmt w))) /\
  Pg.next_id (db w) <= Pg.next_id (db (snd (run_stmt stmt w))).
Proof.
  intros Hs H. unfold run_stmt. specialize (Hs (db w) H).
  destruct (stmt (db w)) as [[a|e] d]; exact Hs.
Qed.

Lemma safe_pool_query {A} (s : Site) (stmt : Pg.Db -> Pg.result A * Pg.Db) :
  stmt_safe stmt -> safe (pool_query s stmt).
Proof.
  intros Hs f w H. unfold pool_query.
  destruct (f s); [cbn; split; [exact H | lia]|].
  now apply safe_run_stmt.
Qed.

Lemma safe_client_query {A} (s : Site) (stmt : Pg.Db -> Pg.result A * Pg.Db) :
  stmt_safe stmt -> safe (client_query s stmt).
Proof.
  intros Hs f w H. unfold client_query.
  destruct (f s); [|now apply safe_run_stmt].
  cbn. split; [exact H | lia].
Qed.

Lemma safe_pool_connect : safe pool_connect.
Proof.
  intros f w H. unfold pool_connect.
  destruct (f AtConnect); cbn [snd db]; [split; [exact H | lia]|].
  split; [now apply key_ok_drop_pending | cbn; lia].
Qed.

Lemma safe_client_release : safe client_release.
Proof. intros f w H. cbn. split; [exact H | lia]. Qed.

Lemma safe_seed_loop (ps : list Product) (i : nat) : safe (seed_loop i ps).
Proof.
  revert i; induction ps as [|p ps IH]; intros i; cbn [seed_loop].
  - apply safe_ret.
  - apply safe_bind; [apply safe_client_query, safe_client_insert|].
    intros _. apply IH.
Qed.

Lemma safe_seed_transaction : safe seed_transaction.
Proof.
  unfold seed_transaction.
  apply safe_finally; [|apply safe_client_release].
  apply safe_try_catch.
  - apply safe_bind; [apply safe_client_query, safe_begin|]. intros _.
    apply safe_bind; [apply safe_seed_loop|]. intros _.
    apply safe_bind; [apply safe_client_query, safe_commit|]. intros _.
    apply safe_console_log.
  - intros e.
    apply safe_bind; [apply safe_client_query, safe_rollback|]. intros _.
    apply safe_console_error.
Qed.

End Keys.

(** ** Startup, beyond the seeding guard *)

Module Startup.
Import Server Seeding.

Lemma initDb_fault_free_open (n t : Z) (pd : option (list Pg.Row))
    (log : list LogLine) (k : nat) :
  initDb no_faults (mkWorld (Pg.mkDb [] n pd t) log k) =
  (Return tt,
   start (seed_rows n t products) (n + 12) t
         (log ++ [Log "Seeding products table..."; Log "Seed complete."]) k).
Proof.
  rewrite initDb_spec_open. cbn [no_faults].
  rewrite seed_transaction_exact.
  change (try_rejected no_faults) with false. cbv iota.
  unfold start. now rewrite <- app_assoc.
Qed.

Lemma initDb_fault_free_empty (n t : Z) (log : list LogLine) (k : nat) :
  initDb no_faults (start [] n t log k) =
  (Return tt,
   start (seed_rows n t products) (n + 12) t
         (log ++ [Log "Seeding products table..."; Log "Seed complete."]) k).
Proof. apply initDb_fault_free_open. Qed.

Lemma seed_rows_ids (n t : Z) (ps : list Product) :
  map Pg.id (seed_rows n t ps) =
  map (fun i => n + Z.of_nat i) (seq O (List.length ps)).
Proof.
  revert n; induction ps as [|p ps IH]; intros n; [reflexivity|].
  cbn [seed_rows map List.length seq seed_row Pg.id].
  f_equal; [lia|]. rewrite IH, <- seq_shift, map_map.
  apply map_ext. intros i. lia.
Qed.

(** X1: a start on an empty table with no call rejected stores the twelve
    products in the order of the array, with the consecutive ids
    [n .. n+11] drawn from the sequence, leaves the sequence at [n+12],
    logs the two seeding lines and gives the connection back. *)
Theorem fault_free_seeding_outcome (n t : Z) (log : list LogLine) (k : nat) :
  initDb no_faults (start [] n t log k) =
    (Return tt,
     start (seed_rows n t products) (n + 12) t
           (log ++ [Log "Seeding products table..."; Log "Seed complete."]) k) /\
  map Pg.id (seed_rows n t products) =
    map (fun i => n + Z.of_nat i) (seq O 12) /\
  map Pg.ext_id (seed_rows n t products) = map (fun p => Some (ext_id p)) products /\
  map Pg.name (seed_rows n t products) = map name products /\
  Forall (fun r => Pg.created_at r = t) (seed_rows n t products).
Proof.
  split; [apply initDb_fault_free_empty|].
  split; [apply (seed_rows_ids n t products)|].
  split; [reflexivity|]. split; [reflexivity|].
  repeat constructor.
Qed.

(** The world after [initDb], whatever calls are rejected: a transaction
    is left open only when the ROLLBACK of the [catch] block is rejected,
    and then [initDb] throws. *)
Lemma initDb_shape (f : Faults)
    (tbl : list Pg.Row) (n t : Z) (log : list LogLine) (k : nat) :
  exists tbl' n' pd more,
    snd (initDb f (start tbl n t log k)) =
      mkWorld (Pg.mkDb tbl' n' pd t) (log ++ more) k /\
    (tbl' = tbl \/ (tbl = [] /\ tbl' = seed_rows n t products)) /\
    (pd = None \/
     (fst (initDb f (start tbl n t log k)) = Throw Pg.ConnectionLost /\
      tbl = [] /\ tbl' = [] /\
      try_rejected f = true /\ f AtRollback = true /\ pd = held f n t)).
Proof.
  rewrite initDb_spec.
  destruct (f AtCreateTable).
  { exists tbl, n, None, []. rewrite app_nil_r.
    split; [reflexivity|]. split; now left. }
  destruct (f AtCount).
  { exists tbl, n, None, []. rewrite app_nil_r.
    split; [reflexivity|]. split; now left. }
  destruct tbl as [|r tbl].
  - destruct (f AtConnect).
    { exists [], n, None, [Log "Seeding products table..."].
      split; [reflexivity|]. split; now left. }
    unfold start. rewrite seed_transaction_exact.
    destruct (try_rejected f); [destruct (f AtRollback)|].
    + exists [], (n + drawn f), (held f n t), [Log "Seeding products table..."].
      split; [reflexivity|]. split; [now left|]. right. repeat split.
    + exists [], (n + drawn f), None,
        [Log "Seeding products table...";
         LogError "Error seeding products:" (Some Pg.ConnectionLost)].
      split; [cbn [snd]; now rewrite <- app_assoc|]. split; now left.
    + exists (seed_rows n t products), (n + 12), None,
        [Log "Seeding products table..."; Log "Seed complete."].
      split; [cbn [snd]; now rewrite <- app_assoc|]. split; [now right | now left].
  - destruct (Pg.int4 (Z.of_nat (List.length (r :: tbl)))).
    + eexists (r :: tbl), n, None, [_].
      split; [reflexivity|]. split; now left.
    + exists (r :: tbl), n, None, []. rewrite app_nil_r.
      split; [reflexivity|]. split; now left.
Qed.

(** X2: [initDb] gives back every connection it takes, whatever calls are
    rejected and whether it returns or throws, and it only adds lines to
    the console.  Whenever it returns, no transaction is open.  A
    transaction is left open in one case only: a call of the [try] block
    and the ROLLBACK of the [catch] block are both rejected; then
    [initDb] throws, and the transaction still holds the rows stored
    before the first rejected call, none of them committed. *)
Theorem initDb_releases_connection (f : Faults)
    (tbl : list Pg.Row) (n t : Z) (log : list LogLine) (k : nat) :
  leased (snd (initDb f (start tbl n t log k))) = k /\
  Pg.clock (db (snd (initDb f (start tbl n t log k)))) = t /\
  (exists more, console (snd (initDb f (start tbl n t log k))) = log ++ more) /\
  (Pg.pending (db (snd (initDb f (start tbl n t log k)))) = None \/
   (fst (initDb f (start tbl n t log k)) = Throw Pg.ConnectionLost /\
    tbl = [] /\ try_rejected f = true /\ f AtRollback = true /\
    table (snd (initDb f (start tbl n t log k))) = [] /\
    Pg.pending (db (snd (initDb f (start tbl n t log k)))) = held f n t)).
Proof.
  destruct (initDb_shape f tbl n t log k) as [tbl' [n' [pd [more [E [_ Hp]]]]]].
  rewrite E. cbn [leased db console Pg.clock Pg.pending table Pg.rows].
  split; [reflexivity|]. split; [reflexivity|]. split; [now exists more|].
  destruct Hp as [-> | [H1 [H2 [H3 [H4 [H5 H6]]]]]]; [now left|].
  right. subst tbl'. repeat split; assumption.
Qed.

(** The start fails before [app.listen]: some call that [initDb] does not
    guard is rejected, or the count of a non-empty table does not fit
    [int]. *)
Definition startup_fails (f : Faults) (tbl : list Pg.Row) : bool :=
  f AtCreateTable || f AtCount ||
  match tbl with
  | [] => f AtConnect || (try_rejected f && f AtRollback)
  | _ :: _ => negb (Pg.int4 (Z.of_nat (List.length tbl)))
  end.

(** X3: how the start of the process ends, for every environment, table and
    choice of rejected calls: it exits with code 1 when the connection
    string is missing or empty, when the schema statement, the count or
    [pool.connect] is rejected, when a call of the seeding transaction and
    its ROLLBACK are both rejected, when the count does not fit [int], or
    when [app.listen] throws on the port (a number outside 0..65535, as
    the string 70000) or the bind fails; in every other case it listens
    on the configured port. *)
Theorem startup_outcome (e : Env) (f : Faults)
    (tbl : list Pg.Row) (n t : Z) (log : list LogLine) (k : nat) :
  fst (main e f (start tbl n t log k)) =
    (if negb (Str.truthy_opt (DATABASE_URL e)) || startup_fails f tbl
        || listen_throws f (port_of e) || f AtBind
     then Exited 1
     else Listening (port_of e)) /\
  listen_throws f (PortNumber 3000) = false /\
  listen_throws f (PortString "8080") = false /\
  listen_throws f (PortString "70000") = true.
Proof.
  split; [|repeat split].
  unfold main, startup_fails.
  destruct (negb (Str.truthy_opt (DATABASE_URL e))); [reflexivity|].
  cbn [orb]. rewrite initDb_spec.
  destruct (f AtCreateTable); [reflexivity|].
  destruct (f AtCount); [reflexivity|]. cbn [orb].
  destruct tbl as [|r tbl].
  - destruct (f AtConnect); [reflexivity|]. cbn [orb].
    unfold start. rewrite seed_transaction_exact.
    destruct (try_rejected f); [destruct (f AtRollback)|]; cbn [andb orb];
      try reflexivity;
      destruct (listen_throws f (port_of e)); try reflexivity;
      destruct (f AtBind); reflexivity.
  - destruct (Pg.int4 (Z.of_nat (List.length (r :: tbl)))); cbn [negb orb];
      [|reflexivity].
    destruct (listen_throws f (port_of e)); [reflexivity|].
    destruct (f AtBind); reflexivity.
Qed.

Lemma key_ok_start_empty (n t : Z) : Keys.key_ok (Pg.mkDb [] n None t).
Proof. split; constructor. Qed.

Lemma safe_initDb : Keys.safe initDb.
Proof.
  unfold initDb.
  apply Keys.safe_bind; [apply Keys.safe_pool_query, Keys.safe_create_table|].
  intros _.
  apply Keys.safe_bind; [apply Keys.safe_pool_query, Keys.safe_count|].
  intros count. destruct (count =? 0).
  - apply Keys.safe_bind; [apply Keys.safe_console_log|]. intros _.
    apply Keys.safe_bind; [apply Keys.safe_pool_connect|]. intros _.
    apply Keys.safe_seed_transaction.
  - apply Keys.safe_console_log.
Qed.

(** X4: a start that seeds after an earlier start failed to: on an empty
    table, whatever was rejected during a first [initDb], a second
    [initDb] with no call rejected leaves the sample set in the table
    exactly once; its ids are the ones of the first run, or later ones
    when the first run was rolled back. *)
Theorem seeding_retried_after_failure (f : Faults)
    (n t : Z) (log : list LogLine) (k : nat) :
  exists n',
    n <= n' /\
    table (snd (initDb no_faults (snd (initDb f (start [] n t log k))))) =
      seed_rows n' t products /\
    map Pg.name (seed_rows n' t products) = map name products.
Proof.
  destruct (initDb_shape f [] n t log k) as [tbl' [n' [pd [more [E [Ht _]]]]]].
  pose proof (safe_initDb f (start [] n t log k) (key_ok_start_empty n t))
    as [_ Hle].
  rewrite E in *. cbn [start db Pg.next_id] in Hle.
  destruct Ht as [-> | [_ ->]].
  - exists n'. split; [exact Hle|].
    rewrite initDb_fault_free_open. split; reflexivity.
  - exists n. split; [lia|].
    rewrite initDb_spec_open. split; reflexivity.
Qed.


(** The faults of the witnesses: the insert of the third product is
    rejected. *)
Definition third_insert_rejected : Faults :=
  fun s => match s with AtSeedInsert 2 => true | _ => false end.


(** X6: the server only listens on a settled database.  When the start
    ends listening, it listens on the configured port, the connection
    string was there, the table is the one found at startup or, when that
    was empty, the whole sample set, no transaction is open, every
    connection is back in the pool, and the last console line announces
    the port. *)
Theorem listening_on_settled_database (e : Env) (f : Faults)
    (tbl : list Pg.Row) (n t : Z) (log : list LogLine) (k : nat) (p : Port) :
  fst (main e f (start tbl n t log k)) = Listening p ->
  p = port_of e /\
  Str.truthy_opt (DATABASE_URL e) = true /\
  exists tbl' n' more,
    snd (main e f (start tbl n t log k)) =
      start tbl' n' t
            (log ++ more ++
               [Log ("Server started at http://localhost:" ++ port_text p)%string])
            k /\
    (tbl' = tbl \/ (tbl = [] /\ tbl' = seed_rows n t products)).
Proof.
  unfold main.
  destruct (Str.truthy_opt (DATABASE_URL e)); cbn [negb]; [|discriminate].
  destruct (initDb_shape f tbl n t log k)
    as [tbl' [n' [pd [more [E [Ht Hp]]]]]].
  destruct (initDb f (start tbl n t log k)) as [[u|err] w']; cbn [fst snd] in *.
  2:{ destruct (console_error _ _ f w'). discriminate. }
  destruct Hp as [-> | [Hthrow _]]; [|discriminate].
  destruct (listen_throws f (port_of e)); [discriminate|].
  destruct (f AtBind); [discriminate|].
  intros H. injection H as <-. split; [reflexivity|]. split; [reflexivity|].
  exists tbl', n', more. split; [|exact Ht].
  rewrite E. cbn. now rewrite <- app_assoc.
Qed.

Lemma listening_on_settled_database_witness :
  fst (main (mkEnv (Some "postgres://db") (Some "8080"))
            third_insert_rejected (start [] 1 0 [] O))
    = Listening (PortString "8080") /\
  PortString "8080" = port_of (mkEnv (Some "postgres://db") (Some "8080")).
Proof.
  split; [reflexivity|].
  refine (proj1 (listening_on_settled_database
                   (mkEnv (Some "postgres://db") (Some "8080"))
                   third_insert_rejected [] 1 0 [] O (PortString "8080")
                   eq_refl)).
Defined.

End Startup.

(** ** The listing handler, beyond the filters *)

Module ListingMore.
Import Server Listing.

Definition fetch_failed : Response :=
  mkResponse 500 (JObject [("error", "Failed to fetch products")]).

Lemma answer_from_table (keep : Pg.Row -> bool) (tbl : list Pg.Row) :
  Forall (fun it => exists r, In r tbl /\ keep r = true /\ it = Pg.item_of r)
         (answer keep tbl).
Proof.
  unfold answer. apply Forall_forall. intros it Hit.
  apply in_map_iff in Hit as [r [<- Hr]].
  apply (Permutation_in _ (PgFacts.order_by_id_perm _)) in Hr.
  apply filter_In in Hr as [Hin Hk]. now exists r.
Qed.

(** X7: the listing handler, called with filters that are strings or
    absent, never throws and never writes.  It ends in one of two ways,
    whatever is rejected: it answers 200 with rows of the table that pass
    the category filter, in ascending order of id, and leaves database,
    console and pool as they were; or it answers 500 with the fixed body
    and adds one [console.error] line, the database and the pool
    untouched. *)
Theorem listing_outcome
    (qCategory qSearch : option string) (f : Faults) (w : World) :
  (exists items,
      fst (get_products qCategory qSearch f w) = Return (ok items) /\
      snd (get_products qCategory qSearch f w) = w /\
      StronglySorted Z.le (map Pg.i_id items) /\
      Forall (fun it => exists r, In r (table w) /\
                                  by_category qCategory r = true /\
                                  it = Pg.item_of r) items) \/
  (fst (get_products qCategory qSearch f w) = Return fetch_failed /\
   db (snd (get_products qCategory qSearch f w)) = db w /\
   leased (snd (get_products qCategory qSearch f w)) = leased w /\
   exists err,
     console (snd (get_products qCategory qSearch f w)) =
     console w ++ [LogError "GET /api/products error" (Some err)]).
Proof.
  destruct (f AtList) eqn:Hf.
  - right. unfold get_products, try_catch, bind, pool_query.
    destruct (build_query qCategory qSearch) as [base params].
    rewrite Hf. cbn. repeat split. now eexists.
  - left. rewrite get_products_ok by exact Hf. cbn [fst snd].
    eexists. split; [reflexivity|]. split; [reflexivity|].
    split; [apply ListingProps.answer_sorted|].
    eapply Forall_impl; [|apply answer_from_table].
    cbv beta. intros it [r [Hin [Hk ->]]]. exists r.
    apply andb_true_iff in Hk as [Hk _]. now repeat split.
Qed.

Lemma truthy_toLowerCase (s : string) :
  Str.truthy (Str.toLowerCase s) = Str.truthy s.
Proof. destruct s; reflexivity. Qed.

(** X8: the search does not depend on the case of the search term: two
    terms with the same lower-case form give the same statement, the same
    parameters and the same response. *)
Theorem search_term_case_insensitive
    (qCategory : option string) (s1 s2 : string) (f : Faults) (w : World) :
  Str.toLowerCase s1 = Str.toLowerCase s2 ->
  build_query qCategory (Some s1) = build_query qCategory (Some s2) /\
  get_products qCategory (Some s1) f w = get_products qCategory (Some s2) f w.
Proof.
  intros H.
  assert (B : build_query qCategory (Some s1) = build_query qCategory (Some s2)).
  { assert (T : Str.truthy s1 = Str.truthy s2).
    { rewrite <- (truthy_toLowerCase s1), H. apply truthy_toLowerCase. }
    rewrite !build_query_eq. unfold search_value. rewrite T.
    destruct (Str.truthy s2); [|reflexivity].
    cbn [option_map is_some to_list]. unfold pattern. now rewrite H. }
  split; [exact B|]. unfold get_products. now rewrite B.
Qed.

Lemma search_term_case_insensitive_witness :
  get_products None (Some "SHIRT") no_faults ListingProps.seeded =
  get_products None (Some "shirt") no_faults ListingProps.seeded.
Proof.
  refine (proj2 (search_term_case_insensitive None "SHIRT" "shirt" no_faults
                   ListingProps.seeded eq_refl)).
Defined.

(** The parameter a condition refers to. *)
Definition placeholder (c : Pg.cond) : nat :=
  match c with
  | Pg.CategoryEq n => n
  | Pg.LowerNameLike n => n
  end.

(** X9: the statement the handler builds is always one the database
    accepts, with as many conditions as bound parameters (at most two),
    and its placeholders are [$1 .. $k] in the order of the parameters. *)
Theorem placeholders_match_parameters (qCategory qSearch : option string) :
  exists conds,
    Pg.parse_select (fst (build_query qCategory qSearch)) = Some conds /\
    map placeholder conds =
      seq 1 (List.length (snd (build_query qCategory qSearch))) /\
    (List.length (snd (build_query qCategory qSearch)) <= 2)%nat.
Proof.
  rewrite build_query_eq. cbn [fst snd]. rewrite parse_select_text.
  eexists. split; [reflexivity|].
  destruct (category_value qCategory), (search_value qSearch); cbn;
    (split; [reflexivity | lia]).
Qed.

(** *** What a search term finds *)

Definition no_backslash (l : list ascii) : Prop :=
  forall ch, In ch l -> Ascii.eqb ch Like.backslash = false.

Lemma parse_app (l1 l2 : list ascii) (ts2 : list Like.tok) :
  no_backslash l1 -> Like.parse l2 = Some ts2 ->
  exists ts1, Like.parse l1 = Some ts1 /\
              Like.parse (l1 ++ l2) = Some (ts1 ++ ts2).
Proof.
  intros H1 H2. induction l1 as [|c l1 IH].
  - exists []. now split.
  - destruct IH as [ts1 [E1 E12]]; [intros ch Hch; apply H1; now right|].
    assert (Hc : Ascii.eqb c Like.backslash = false) by (apply H1; now left).
    change ((c :: l1) ++ l2) with (c :: (l1 ++ l2)).
    rewrite !LikeFacts.parse_cons, Hc, E1, E12.
    destruct (Ascii.eqb c Like.percent); [now eexists|].
    destruct (Ascii.eqb c Like.underscore); now eexists.
Qed.

Lemma matches_app (ts1 ts2 : list Like.tok) :
  forall s1 s2,
    Like.matches ts1 s1 = true -> Like.matches ts2 s2 = true ->
    Like.matches (ts1 ++ ts2) (s1 ++ s2) = true.
Proof.
  induction ts1 as [|tk ts1 IH]; intros s1 s2 H1 H2.
  - destruct s1; [exact H2 | discriminate].
  - destruct tk.
    + change ((Like.Any :: ts1) ++ ts2) with (Like.Any :: (ts1 ++ ts2)).
      apply LikeFacts.matches_any in H1 as [pre [post [-> Hp]]].
      apply LikeFacts.matches_any. exists pre, (post ++ s2).
      split; [now rewrite app_assoc | now apply IH].
    + destruct s1 as [|d s1]; [discriminate|]. simpl in *. now apply IH.
    + destruct s1 as [|d s1]; [discriminate|]. simpl in *.
      apply andb_true_iff in H1 as [Hc H1]. rewrite Hc. now apply IH.
Qed.

(** A pattern without backslash matches itself. *)
Lemma matches_self (l : list ascii) (ts : list Like.tok) :
  no_backslash l -> Like.parse l = Some ts -> Like.matches ts l = true.
Proof.
  revert ts; induction l as [|c l IH]; intros ts Hl E.
  - injection E as <-. reflexivity.
  - assert (Hc : Ascii.eqb c Like.backslash = false) by (apply Hl; now left).
    assert (Hl' : no_backslash l) by (intros ch Hch; apply Hl; now right).
    rewrite LikeFacts.parse_cons, Hc in E.
    destruct (Like.parse l) as [ts'|] eqn:E'.
    2:{ destruct (Ascii.eqb c Like.percent); [discriminate|].
        destruct (Ascii.eqb c Like.underscore); discriminate. }
    specialize (IH ts' Hl' eq_refl). cbn [option_map] in E.
    destruct (Ascii.eqb c Like.percent).
    { injection E as <-. apply LikeFacts.matches_any.
      exists [c], l. now split. }
    destruct (Ascii.eqb c Like.underscore); injection E as <-; simpl.
    + exact IH.
    + now rewrite Ascii.eqb_refl.
Qed.

Lemma lower_ascii_backslash (c : ascii) :
  Ascii.eqb (Str.lower_ascii c) Like.backslash = Ascii.eqb c Like.backslash.
Proof. destruct c as [[] [] [] [] [] [] [] []]; reflexivity. Qed.

Lemma like_finds_literal (s subject : string) :
  no_backslash (Str.chars s) ->
  Str.contains (Str.toLowerCase s) subject = true ->
  Like.like subject (pattern s) = Some true.
Proof.
  intros Hs Hc. apply StrFacts.contains_spec in Hc as [pre [post Hc]].
  unfold Like.like, pattern. rewrite !StrFacts.chars_append.
  change (Str.chars "%") with [Like.percent].
  set (l := Str.chars (Str.toLowerCase s)) in *.
  assert (Hl : no_backslash l).
  { intros ch Hch. subst l. rewrite StrFacts.chars_toLowerCase in Hch.
    apply in_map_iff in Hch as [c0 [<- Hin]].
    rewrite lower_ascii_backslash. now apply Hs. }
  destruct (parse_app l [Like.percent] [Like.Any] Hl eq_refl) as [ts [E1 E2]].
  change ([Like.percent] ++ l ++ [Like.percent])
    with (Like.percent :: (l ++ [Like.percent])).
  rewrite LikeFacts.parse_cons.
  change (Ascii.eqb Like.percent Like.backslash) with false.
  change (Ascii.eqb Like.percent Like.percent) with true. cbv iota.
  rewrite E2. cbn [option_map]. f_equal. rewrite Hc.
  apply LikeFacts.matches_any. exists pre, (l ++ post). split; [reflexivity|].
  apply matches_app; [now apply matches_self|].
  apply LikeFacts.matches_any. exists post, []. split; [now rewrite app_nil_r | reflexivity].
Qed.

(** X10: a search never misses a literal occurrence of an ASCII term that
    holds no backslash: every row of the table with an ASCII name that
    passes the category filter and whose name, folded to lower case by the
    database, contains the term, folded to lower case by the handler, is
    in the listing, also when the term holds [%] or [_]. *)
Theorem search_finds_literal_occurrence
    (qCategory : option string) (s : string) (f : Faults) (w : World)
    (r : Pg.Row) :
  f AtList = false ->
  Str.ascii_text s = true ->
  (forall ch, In ch (Str.chars s) -> Ascii.eqb ch Like.backslash = false) ->
  Pg.text_opt qCategory = true ->
  In r (table w) ->
  Str.ascii_text (Pg.name r) = true ->
  by_category qCategory r = true ->
  Str.contains (Str.toLowerCase s) (Pg.lower (Pg.name r)) = true ->
  exists items,
    fst (get_products qCategory (Some s) f w) = Return (ok items) /\
    In (Pg.item_of r) items.
Proof.
  intros Hf _ Hs _ Hin _ Hcat Hc.
  rewrite get_products_ok by exact Hf. cbn [fst].
  eexists. split; [reflexivity|].
  unfold answer. apply in_map.
  eapply Permutation_in; [symmetry; apply PgFacts.order_by_id_perm|].
  apply filter_In. split; [exact Hin|].
  rewrite Hcat. cbn [andb]. unfold by_search, search_value.
  destruct (Str.truthy s); [|reflexivity].
  now rewrite (like_finds_literal s _ Hs Hc).
Qed.

(** A row whose name holds a [%]. *)
Definition percent_row : Pg.Row :=
  Pg.mkRow 1 None "Jeans 50% Off" (Some "jeans") 2500 None (Some 3) 0.

Lemma search_finds_literal_occurrence_witness :
  exists items,
    fst (get_products (Some "jeans") (Some "50% OFF") no_faults
           (mkWorld (Pg.mkDb [percent_row] 2 None 0) [] O)) = Return (ok items) /\
    In (Pg.item_of percent_row) items.
Proof.
  refine (search_finds_literal_occurrence (Some "jeans") "50% OFF" no_faults
            (mkWorld (Pg.mkDb [percent_row] 2 None 0) [] O) percent_row
            eq_refl eq_refl _ eq_refl _ eq_refl eq_refl eq_refl).
  - intros ch H. simpl in H.
    repeat (destruct H as [<- | H]; [reflexivity|]). destruct H.
  - now left.
Defined.

End ListingMore.

(** ** The create handler, beyond its defaults *)

Module CreateMore.
Import Server Listing.

(** The two ways a create request ends. *)
Lemma post_products_cases (b : Body) (f : Faults) (w : World) :
  (exists r,
      post_products b f w =
        (Return (mkResponse 201 (JRow (Some r))),
         mkWorld (Pg.mkDb (table w ++ [r]) (Pg.next_id (db w) + 1)
                          (Pg.pending (db w)) (Pg.clock (db w)))
                 (console w) (leased w)) /\
      Pg.make_row (db w) (create_params b) = (Pg.Ok r, Pg.bump (db w)) /\
      f AtCreate = false) \/
  (fst (post_products b f w) = Return Create.creation_failed /\
   table (snd (post_products b f w)) = table w /\
   exists err,
     console (snd (post_products b f w)) =
     console w ++ [LogError "POST /api/products error" (Some err)]).
Proof.
  unfold post_products, try_catch, bind, pool_query.
  destruct (f AtCreate) eqn:Hf.
  { right. cbn. repeat split. now eexists. }
  unfold run_stmt, Pg.pool_insert_returning.
  destruct (Keys.make_row_cases (db w) (create_params b))
    as [[e E] | [[e E] | [r [E _]]]]; rewrite E.
  - right. cbn. repeat split. now eexists.
  - right. cbn. repeat split. now eexists.
  - left. exists r. split; [reflexivity | now split].
Qed.

(** X11: a create request whose fields, where present, have the JSON type
    of their column (strings for the texts, integers for [stock] and
    [ext_id], a number of at most two decimals for [price]) ends in one of
    two ways, whatever is rejected.  Either it answers 201 with the row it
    stored: exactly that one row is appended to the table, with the next
    value of the sequence as id and the clock as [created_at], the other
    fields as sent, a [stock] that is never null and an [ext_id] that is
    never 0.  Or it answers 500 with the fixed body, logs the error and
    leaves the table as it was.  The handler never throws. *)
Theorem create_outcome (b : Body) (f : Faults) (w : World) :
  (exists r,
      fst (post_products b f w) = Return (mkResponse 201 (JRow (Some r))) /\
      table (snd (post_products b f w)) = table w ++ [r] /\
      console (snd (post_products b f w)) = console w /\
      Pg.id r = Pg.next_id (db w) /\
      Pg.created_at r = Pg.clock (db w) /\
      b_name b = Some (Pg.name r) /\ b_price b = Some (Pg.price r) /\
      Pg.category r = b_category b /\ Pg.image r = b_image b /\
      Pg.ext_id r = or_null (b_ext_id b) /\ Pg.ext_id r <> Some 0 /\
      Pg.stock r = or_zero (b_stock b) /\ Pg.stock r <> None) \/
  (fst (post_products b f w) = Return Create.creation_failed /\
   table (snd (post_products b f w)) = table w /\
   exists err,
     console (snd (post_products b f w)) =
     console w ++ [LogError "POST /api/products error" (Some err)]).
Proof.
  destruct (post_products_cases b f w) as [[r [E [Hm _]]] | H]; [left | now right].
  exists r. rewrite E. cbn [fst snd table db console Pg.rows].
  destruct (Keys.make_row_cases (db w) (create_params b))
    as [[e E'] | [[e E'] | [r' [E' Hr]]]]; rewrite E' in Hm; try discriminate.
  injection Hm as <-. cbn [create_params Pg.p_ext_id Pg.p_stock Pg.p_name
                            Pg.p_price Pg.p_category Pg.p_image] in Hr.
  destruct Hr as [Hid [Hc [He [Hs [Hn [Hp [Hcat Him]]]]]]].
  repeat split; try assumption.
  - rewrite He. unfold or_null. destruct (b_ext_id b) as [z|]; [|discriminate].
    destruct (z =? 0) eqn:Ez; [discriminate|].
    apply Z.eqb_neq in Ez. congruence.
  - rewrite Hs. unfold or_zero. destruct (b_stock b) as [z|]; [|discriminate].
    destruct (z =? 0); discriminate.
Qed.

Lemma safe_post_products (b : Body) : Keys.safe (post_products b).
Proof.
  unfold post_products. apply Keys.safe_try_catch.
  - apply Keys.safe_bind; [apply Keys.safe_pool_query, Keys.safe_pool_insert|].
    intros rows. apply Keys.safe_ret.
  - intros e. apply Keys.safe_bind; [apply Keys.safe_console_error|].
    intros _. apply Keys.safe_ret.
Qed.

(** X12: the create handler keeps the primary key: if ids are unique and
    below the sequence before a request, they are after it, whether the
    request succeeds or fails, and the sequence has not moved back. *)
Theorem create_keeps_key (b : Body) (f : Faults) (w : World) :
  Keys.key_ok (db w) ->
  Keys.key_ok (db (snd (post_products b f w))) /\
  NoDup (map Pg.id (table (snd (post_products b f w)))) /\
  Pg.next_id (db w) <= Pg.next_id (db (snd (post_products b f w))).
Proof.
  intros H. destruct (safe_post_products b f w H) as [Hk Hle].
  split; [exact Hk|]. split; [|exact Hle].
  destruct Hk as [Hd _]. unfold Keys.all_rows in Hd. rewrite map_app in Hd.
  eapply NoDup_app_remove_r. exact Hd.
Qed.

(** A request with every field set. *)
Definition scarf : Body :=
  mkBody (Some "Wool Scarf") (Some "accessories") (Some 2250)
         (Some "https://example.org/scarf.jpg") (Some 4) (Some 31).

Lemma create_keeps_key_witness :
  List.length (table ListingProps.seeded) = 12%nat /\
  NoDup (map Pg.id (table (snd (post_products scarf no_faults
                                              ListingProps.seeded)))) /\
  List.length (table (snd (post_products scarf no_faults
                                         ListingProps.seeded))) = 13%nat.
Proof.
  split; [reflexivity|]. split; [|reflexivity].
  refine (proj1 (proj2 (create_keeps_key scarf no_faults
                          ListingProps.seeded _))).
  split; vm_compute; repeat constructor; simpl; intuition discriminate.
Defined.

(** *** A created product in the listing *)






End CreateMore.
